(** * Email-code authentication: verification-code and session lifecycle

    A shallow embedding of the three Netlify functions of the recruiter
    portal (send-code, verify-code, check-session) and of the persistence
    and e-mail collaborators they talk to, followed by the properties of the
    code/session state machine.

    Conventions.
    - A JavaScript string is a [string] whose characters are UTF-16 code
      units below 256 (the Latin-1 range).
    - A timestamp (a [Date], or a [timestamptz] column) is a [Z] number of
      milliseconds since the epoch.
    - A handler is a value of [Proc Response]: a tree whose nodes are the
      awaited calls to a collaborator, so that the same definition can be
      run to completion on a store ([run]) or interleaved with another
      request at its suspension points ([interleave]). *)

From Stdlib Require Import String Ascii List ZArith NArith Bool Arith Lia.
From Stdlib Require Import Permutation Sorted DecimalString.
Import ListNotations.

Local Open Scope string_scope.
Local Open Scope Z_scope.

(** ** JavaScript strings *)

Module Js.

(** [WhiteSpace] and [LineTerminator] code units below 256: TAB, LF, VT, FF,
    CR, SP and NBSP.  This is the set stripped by [String.prototype.trim]
    and matched by [\s]. *)
Definition isWhiteSpace (c : ascii) : bool :=
  let n := N_of_ascii c in
  (((9 <=? n) && (n <=? 13)) || (n =? 32) || (n =? 160))%N.

Fixpoint trimStart (s : string) : string :=
  match s with
  | EmptyString => EmptyString
  | String c s' => if isWhiteSpace c then trimStart s' else s
  end.

Fixpoint trimEnd (s : string) : string :=
  match s with
  | EmptyString => EmptyString
  | String c s' =>
      match trimEnd s' with
      | EmptyString => if isWhiteSpace c then EmptyString else String c EmptyString
      | t => String c t
      end
  end.

(** [s.trim()] *)
Definition trim (s : string) : string := trimEnd (trimStart s).

(** Lower-casing of one code unit below 256: A-Z, and the Latin-1 capitals
    U+00C0..U+00DE without the multiplication sign U+00D7. *)
Definition toLowerCaseChar (c : ascii) : ascii :=
  let n := N_of_ascii c in
  if (((65 <=? n) && (n <=? 90))
      || ((192 <=? n) && (n <=? 222) && negb (n =? 215)))%N
  then ascii_of_N (n + 32) else c.

(** [s.toLowerCase()] *)
Fixpoint toLowerCase (s : string) : string :=
  match s with
  | EmptyString => EmptyString
  | String c s' => String (toLowerCaseChar c) (toLowerCase s')
  end.

(** [s.split(sep)] for a one-character separator. *)
Fixpoint split (sep : ascii) (s : string) : list string :=
  match s with
  | EmptyString => [EmptyString]
  | String c s' =>
      if Ascii.eqb c sep then EmptyString :: split sep s'
      else match split sep s' with
           | h :: t => String c h :: t
           | [] => [String c EmptyString]
           end
  end.

(** [xs.includes(x)] on an array of strings. *)
Definition includes (xs : list string) (x : string) : bool :=
  existsb (String.eqb x) xs.

(** Truthiness of a string-valued field that may be absent: [undefined]
    and the empty string are falsy. *)
Definition truthy (v : option string) : bool :=
  match v with
  | None => false
  | Some EmptyString => false
  | Some _ => true
  end.

(** [n.toString()] for an integer. *)
Definition toString (n : Z) : string := NilZero.string_of_int (Z.to_int n).

(** *** Regular expressions

    The two patterns of the source use character classes, concatenation and
    [+] only; they are matched by Brzozowski derivatives. *)

Inductive regex : Type :=
| Fail : regex
| Eps : regex
| Class : (ascii -> bool) -> regex
| Seq : regex -> regex -> regex
| Alt : regex -> regex -> regex
| Star : regex -> regex.

Definition Plus (r : regex) : regex := Seq r (Star r).

Fixpoint nullable (r : regex) : bool :=
  match r with
  | Fail => false
  | Eps => true
  | Class _ => false
  | Seq r1 r2 => nullable r1 && nullable r2
  | Alt r1 r2 => nullable r1 || nullable r2
  | Star _ => true
  end.

Fixpoint deriv (c : ascii) (r : regex) : regex :=
  match r with
  | Fail => Fail
  | Eps => Fail
  | Class p => if p c then Eps else Fail
  | Seq r1 r2 =>
      if nullable r1 then Alt (Seq (deriv c r1) r2) (deriv c r2)
      else Seq (deriv c r1) r2
  | Alt r1 r2 => Alt (deriv c r1) (deriv c r2)
  | Star r1 => Seq (deriv c r1) (Star r1)
  end.

(** [/^r$/.test(s)] *)
Fixpoint test (r : regex) (s : string) : bool :=
  match s with
  | EmptyString => nullable r
  | String c s' => test (deriv c r) s'
  end.

(** [\d] *)
Definition digit (c : ascii) : bool :=
  let n := N_of_ascii c in ((48 <=? n) && (n <=? 57))%N.

(** [[^\s@]] *)
Definition notSpaceAt (c : ascii) : bool :=
  negb (isWhiteSpace c) && negb (Ascii.eqb c "@"%char).

Definition char (a : ascii) : regex := Class (Ascii.eqb a).

End Js.

(** [/^[^\s@]+@[^\s@]+\.[^\s@]+$/] (send-code) *)
Definition emailRegex : Js.regex :=
  Js.Seq (Js.Plus (Js.Class Js.notSpaceAt))
    (Js.Seq (Js.char "@")
       (Js.Seq (Js.Plus (Js.Class Js.notSpaceAt))
          (Js.Seq (Js.char ".") (Js.Plus (Js.Class Js.notSpaceAt))))).

(** [/^\d{5}$/] (verify-code) *)
Definition codeRegex : Js.regex :=
  Js.Seq (Js.Class Js.digit)
    (Js.Seq (Js.Class Js.digit)
       (Js.Seq (Js.Class Js.digit)
          (Js.Seq (Js.Class Js.digit) (Js.Class Js.digit)))).

(** [email.trim().toLowerCase()], the normalisation both handlers apply. *)
Definition normalize (email : string) : string := Js.toLowerCase (Js.trim email).

(** ** Double-precision arithmetic

    The doubles met in the generation of a code are non-negative multiples
    of 2^-53, neither subnormal nor near overflow.  Such a double is
    represented by the integer that counts its units of 2^-53, and an
    arithmetic operation is the exact operation followed by rounding to the
    nearest value with 53 significant bits, ties to even. *)

Module Float64.

(** [v / 2^k] rounded to the nearest integer, ties to even. *)
Definition rne_div (v k : Z) : Z :=
  let q := v / 2 ^ k in
  let r := v mod 2 ^ k in
  let half := 2 ^ (k - 1) in
  if r <? half then q
  else if half <? r then q + 1
  else if Z.even q then q else q + 1.

(** The nearest value with 53 significant bits. *)
Definition round (v : Z) : Z :=
  let k := Z.log2 v + 1 - 53 in
  if k <=? 0 then v else 2 ^ k * rne_div v k.

(** An integer as a double, in units of 2^-53. *)
Definition of_int (n : Z) : Z := n * 2 ^ 53.

(** [x * n] for a double [x] and an integer [n] below 2^53. *)
Definition mul_int (x n : Z) : Z := round (x * n).

(** [x + y] *)
Definition add (x y : Z) : Z := round (x + y).

(** [Math.floor(x)] *)
Definition floor (x : Z) : Z := x / 2 ^ 53.

End Float64.

(** ** Data model: the two tables of the persistence service *)

(** Modelled from the spec: the table definitions are not among the
    sources, which only name the columns they read, filter on or write.
    A row of [verification_codes]: [vc_id] and [vc_created_at] are filled in
    by the database on insert (a fresh identifier, the database's clock);
    the handlers write the other columns. *)
Record VerificationCode : Type := mkCode {
  vc_id : nat;
  vc_email : string;
  vc_code : string;
  vc_created_at : Z;
  vc_expires_at : Z;
  vc_used : bool;
  vc_used_at : option Z
}.

(** Modelled from the spec: a row of [sessions], with the columns the
    handlers read or write; [last_accessed] is empty until the first
    successful check. *)
Record Session : Type := mkSession {
  se_session_id : string;
  se_email : string;
  se_expires_at : Z;
  se_last_accessed : option Z
}.

Record Store : Type := mkStore {
  verification_codes : list VerificationCode;
  sessions : list Session
}.

(** ** The awaited calls *)

(** One constructor per call site shape of the source. *)
Inductive Query : Type :=
| SelectCode (email code : string)
    (* from('verification_codes').select('*').eq('email', ..).eq('code', ..)
       .eq('used', false).order('created_at', {ascending: false}).limit(1).single() *)
| UpdateCodeUsed (id : nat) (used_at : option Z)
    (* from('verification_codes').update({used: true [, used_at]}).eq('id', ..) *)
| InsertCode (email code : string) (expires_at : Z)
    (* from('verification_codes').insert({email, code, expires_at, used: false}) *)
| SelectSession (session_id : string)
    (* from('sessions').select('*').eq('session_id', ..).single() *)
| InsertSession (session_id email : string) (expires_at : Z)
    (* from('sessions').insert({session_id, email, expires_at}) *)
| DeleteSession (session_id : string)
    (* from('sessions').delete().eq('session_id', ..) *)
| UpdateLastAccessed (session_id : string) (last_accessed : Z)
    (* from('sessions').update({last_accessed}).eq('session_id', ..) *)
| SendEmail (to code : string).
    (* new Resend(..).emails.send({from, to, subject, html}) *)

(** What an awaited call gives back.  For the database client this is the
    pair [{data, error}]: [CodeRow]/[SessionRow] carry [data] with no error,
    [NoData] is [{data: null, error: null}], [Failed] is a non-null [error].
    The e-mail client has two ways to fail: [Failed] is a thrown exception,
    [MailError] is a resolved value [{data: null, error}] whose [error]
    member is set; [NoData] is a resolved value without error. *)
Inductive Reply : Type :=
| CodeRow (r : VerificationCode)
| SessionRow (r : Session)
| NoData
| MailError
| Failed.

(** *** Query semantics on a store *)

(** [.eq('email', email).eq('code', code).eq('used', false)] *)
Definition matches_code (email code : string) (r : VerificationCode) : bool :=
  String.eqb (vc_email r) email && String.eqb (vc_code r) code
  && Bool.eqb (vc_used r) false.

Fixpoint insert_created_at_desc (r : VerificationCode)
  (l : list VerificationCode) : list VerificationCode :=
  match l with
  | [] => [r]
  | x :: l' =>
      if vc_created_at x <? vc_created_at r then r :: l
      else x :: insert_created_at_desc r l'
  end.

(** [.order('created_at', {ascending: false})] *)
Fixpoint order_created_at_desc (l : list VerificationCode)
  : list VerificationCode :=
  match l with
  | [] => []
  | x :: l' => insert_created_at_desc x (order_created_at_desc l')
  end.

(** The order of the result: no row comes before a row created after it. *)
Definition newer_or_equal (a b : VerificationCode) : Prop :=
  vc_created_at b <= vc_created_at a.

(** [.limit(n)] *)
Definition limit {A : Type} (n : nat) (rows : list A) : list A := firstn n rows.

(** [.single()]: the row when the result has exactly one, an error otherwise. *)
Definition single {A : Type} (rows : list A) : option A :=
  match rows with
  | [r] => Some r
  | _ => None
  end.

Definition select_code (email code : string) (s : Store)
  : option VerificationCode :=
  single (limit 1 (order_created_at_desc
                     (filter (matches_code email code) (verification_codes s)))).

Definition mark_used (id : nat) (used_at : option Z) (r : VerificationCode)
  : VerificationCode :=
  if Nat.eqb (vc_id r) id then
    mkCode (vc_id r) (vc_email r) (vc_code r) (vc_created_at r) (vc_expires_at r)
      true
      (match used_at with Some t => Some t | None => vc_used_at r end)
  else r.

(** The identifier the database gives to the next inserted code row. *)
Definition next_id (s : Store) : nat :=
  S (list_max (map vc_id (verification_codes s))).

Definition session_is (session_id : string) (r : Session) : bool :=
  String.eqb (se_session_id r) session_id.

Definition select_session (session_id : string) (s : Store) : option Session :=
  single (filter (session_is session_id) (sessions s)).

Definition touch (session_id : string) (t : Z) (r : Session) : Session :=
  if session_is session_id r then
    mkSession (se_session_id r) (se_email r) (se_expires_at r) (Some t)
  else r.

(** The writes, as functions on the store. *)
Definition store_mark_used (id : nat) (used_at : option Z) (s : Store) : Store :=
  mkStore (map (mark_used id used_at) (verification_codes s)) (sessions s).

Definition store_insert_code (db_now : Z) (email code : string) (expires_at : Z)
  (s : Store) : Store :=
  mkStore (verification_codes s
           ++ [mkCode (next_id s) email code db_now expires_at false None])
          (sessions s).

Definition store_insert_session (session_id email : string) (expires_at : Z)
  (s : Store) : Store :=
  mkStore (verification_codes s)
          (sessions s ++ [mkSession session_id email expires_at None]).

Definition store_delete_session (session_id : string) (s : Store) : Store :=
  mkStore (verification_codes s)
          (filter (fun r => negb (session_is session_id r)) (sessions s)).

Definition store_touch_session (session_id : string) (t : Z) (s : Store) : Store :=
  mkStore (verification_codes s) (map (touch session_id t) (sessions s)).

(** [exec db_now q s]: the reply to [q] and the store after it, when the
    call reaches the service and the service carries it out at database time
    [db_now].  A write without [.select()] replies with no data; the update
    of [used] is by [id] alone, whatever the row's present [used]. *)
Definition exec (db_now : Z) (q : Query) (s : Store) : Reply * Store :=
  match q with
  | SelectCode email code =>
      match select_code email code s with
      | Some r => (CodeRow r, s)
      | None => (Failed, s)
      end
  | UpdateCodeUsed id used_at => (NoData, store_mark_used id used_at s)
  | InsertCode email code expires_at =>
      (NoData, store_insert_code db_now email code expires_at s)
  | SelectSession session_id =>
      match select_session session_id s with
      | Some r => (SessionRow r, s)
      | None => (Failed, s)
      end
  | InsertSession session_id email expires_at =>
      (NoData, store_insert_session session_id email expires_at s)
  | DeleteSession session_id => (NoData, store_delete_session session_id s)
  | UpdateLastAccessed session_id t => (NoData, store_touch_session session_id t s)
  | SendEmail _ _ => (NoData, s)
  end.

(** The collaborators as one request sees them: which of its calls fail
    (the database client then returns an error and the e-mail client
    throws; the store is left as it was), the database clock, and whether
    the e-mail client, when it does not throw, resolves to a value that
    reports an error. *)
Record Net : Type := mkNet {
  fails : Query -> bool;
  db_now : Z;
  mail_rejected : bool
}.

Definition perform (net : Net) (q : Query) (s : Store) : Reply * Store :=
  if fails net q then (Failed, s)
  else match q with
       | SendEmail _ _ =>
           if mail_rejected net then (MailError, s) else exec (db_now net) q s
       | _ => exec (db_now net) q s
       end.

(** ** Handlers as trees of awaited calls *)

Inductive Proc (A : Type) : Type :=
| Ret (a : A)
| Call (q : Query) (k : Reply -> Proc A).

Arguments Ret {A} a.
Arguments Call {A} q k.

Notation "r <- 'await' q ;; k" := (Call q (fun r => k))
  (at level 61, q at next level, right associativity).

(** A request run to completion, alone on the store. *)
Fixpoint run {A : Type} (net : Net) (p : Proc A) (s : Store) : A * Store :=
  match p with
  | Ret a => (a, s)
  | Call q k => let (r, s') := perform net q s in run net (k r) s'
  end.




(** ** Requests, responses and the per-request environment *)

(** [JSON.parse(event.body)] destructured: each field is absent or a string. *)
Record Fields : Type := mkFields {
  f_email : option string;
  f_code : option string;
  f_sessionId : option string
}.

(** [event]: [body] is [None] when [JSON.parse] or the destructuring throws. *)
Record Event : Type := mkEvent {
  httpMethod : string;
  body : option Fields
}.

Definition POST (b : Fields) : Event := mkEvent "POST" (Some b).

(** The object given to [JSON.stringify] for the response body. *)
Inductive Body : Type :=
| Error (error : string)
| ErrorDetails (error : string)            (* {error, details: error.message} *)
| CodeSent (message : string)              (* {success: true, message} *)
| CodeSentWarning (warning : string)       (* {success: true, warning} *)
| Verified (sessionId : string) (expiresAt : Z)
                                           (* {success: true, sessionId, expiresAt} *)
| SessionInvalid (reason : string)         (* {valid: false, reason} *)
| SessionValid (email : string) (expiresAt : Z).
                                           (* {valid: true, email, expiresAt} *)

Record Response : Type := mkResponse {
  statusCode : Z;
  resp_body : Body
}.

(** The [sessionId] member of a response body, if it has one. *)
Definition body_sessionId (b : Body) : option string :=
  match b with
  | Verified sid _ => Some sid
  | _ => None
  end.


(** What a request reads besides its event and the collaborators:
    [process.env.APPROVED_RECRUITER_EMAILS], the successive readings of the
    clock ([clock 0] is the first [new Date()] of the request), the result
    of [Math.random()] in units of 2^-53 (a double in [0, 1) with at
    most 53 fractional bits is [n / 2^53] for [0 <= n < 2^53]), and the
    bytes returned by [crypto.randomBytes(32)]. *)
Record Env : Type := mkEnv {
  APPROVED_RECRUITER_EMAILS : option string;
  clock : nat -> Z;
  Math_random : Z;
  randomBytes : list ascii
}.

Definition hexDigit (n : N) : ascii :=
  if (n <? 10)%N then ascii_of_N (48 + n) else ascii_of_N (87 + n).

(** [buf.toString('hex')] *)
Fixpoint toHex (buf : list ascii) : string :=
  match buf with
  | [] => EmptyString
  | b :: buf' =>
      let n := N_of_ascii b in
      String (hexDigit (n / 16)) (String (hexDigit (n mod 16)) (toHex buf'))
  end.

(** [expiresAt.setMinutes(expiresAt.getMinutes() + 10)] and
    [sessionExpiresAt.setHours(sessionExpiresAt.getHours() + 24)] move the
    local time of the function's time zone.  The zone is taken to have no
    clock change within the interval (as UTC has none), where the two calls
    add these numbers of milliseconds. *)
Definition CODE_TTL_MS : Z := 10 * 60 * 1000.
Definition SESSION_TTL_MS : Z := 24 * 60 * 60 * 1000.

(** ** The three functions *)

(** *** send-code *)

Module SendCode.

(** [process.env.APPROVED_RECRUITER_EMAILS?.split(',')
      .map(e => e.trim().toLowerCase()) || []] *)
Definition approvedEmails (env : Env) : list string :=
  match APPROVED_RECRUITER_EMAILS env with
  | Some v => map normalize (Js.split "," v)
  | None => []
  end.

(** [Math.floor(10000 + Math.random() * 90000).toString()], in double
    arithmetic: the product is rounded, then the sum. *)
Definition code (env : Env) : string :=
  let product := Float64.mul_int (Math_random env) 90000 in
  let sum := Float64.add (Float64.of_int 10000) product in
  Js.toString (Float64.floor sum).

Definition handler (env : Env) (event : Event) : Proc Response :=
  if negb (String.eqb (httpMethod event) "POST") then
    Ret (mkResponse 405 (Error "Method not allowed"))
  else
    match body event with
    | None => Ret (mkResponse 500 (ErrorDetails "Failed to process request"))
    | Some fields =>
        if negb (Js.truthy (f_email fields)) then
          Ret (mkResponse 400 (Error "Email is required"))
        else
          let normalizedEmail :=
            normalize (match f_email fields with Some e => e | None => "" end) in
          if negb (Js.test emailRegex normalizedEmail) then
            Ret (mkResponse 400 (Error "Invalid email format"))
          else if negb (Js.includes (approvedEmails env) normalizedEmail) then
            Ret (mkResponse 403
                   (Error "Your email is not authorized to access this portal. Please contact your administrator."))
          else
            let code := code env in
            let expiresAt := clock env 0 + CODE_TTL_MS in
            dbError <- await InsertCode normalizedEmail code expiresAt ;;
            match dbError with
            | Failed =>
                Ret (mkResponse 500 (Error "Failed to generate verification code"))
            | _ =>
                sent <- await SendEmail normalizedEmail code ;;
                match sent with
                | Failed =>
                    Ret (mkResponse 200
                           (CodeSentWarning "Code saved but email delivery may be delayed. Please check your spam folder or try again in a moment."))
                | _ =>
                    Ret (mkResponse 200
                           (CodeSent "Verification code sent to your email"))
                end
            end
    end.

End SendCode.

(** *** verify-code *)

Module VerifyCode.

Definition invalid : Response :=
  mkResponse 401 (Error "Invalid verification code").

Definition expired : Response :=
  mkResponse 401
    (Error "Verification code has expired. Please request a new one.").

Definition handler (env : Env) (event : Event) : Proc Response :=
  if negb (String.eqb (httpMethod event) "POST") then
    Ret (mkResponse 405 (Error "Method not allowed"))
  else
    match body event with
    | None => Ret (mkResponse 500 (ErrorDetails "Failed to process request"))
    | Some fields =>
        if negb (Js.truthy (f_email fields)) || negb (Js.truthy (f_code fields)) then
          Ret (mkResponse 400 (Error "Email and code are required"))
        else
          let normalizedEmail :=
            normalize (match f_email fields with Some e => e | None => "" end) in
          let code := match f_code fields with Some c => c | None => "" end in
          if negb (Js.test codeRegex code) then
            Ret (mkResponse 400 (Error "Invalid code format"))
          else
            fetched <- await SelectCode normalizedEmail code ;;
            match fetched with
            | CodeRow verificationData =>
                let now := clock env 0 in
                let expiresAt := vc_expires_at verificationData in
                if expiresAt <? now then
                  _ <- await UpdateCodeUsed (vc_id verificationData) None ;;
                  Ret expired
                else
                  updateError <- await UpdateCodeUsed (vc_id verificationData)
                                         (Some (clock env 1)) ;;
                  match updateError with
                  | Failed => Ret (mkResponse 500 (Error "Failed to verify code"))
                  | _ =>
                      let sessionId := toHex (randomBytes env) in
                      let sessionExpiresAt := clock env 2 + SESSION_TTL_MS in
                      sessionError <- await InsertSession sessionId normalizedEmail
                                              sessionExpiresAt ;;
                      match sessionError with
                      | Failed =>
                          Ret (mkResponse 500 (Error "Failed to create session"))
                      | _ =>
                          Ret (mkResponse 200 (Verified sessionId sessionExpiresAt))
                      end
                  end
            | _ => Ret invalid
            end
    end.

End VerifyCode.

(** *** check-session *)

Module CheckSession.

Definition not_found : Response :=
  mkResponse 200 (SessionInvalid "Session not found").

Definition expired : Response :=
  mkResponse 200 (SessionInvalid "Session expired").

Definition handler (env : Env) (event : Event) : Proc Response :=
  if negb (String.eqb (httpMethod event) "POST") then
    Ret (mkResponse 405 (Error "Method not allowed"))
  else
    match body event with
    | None => Ret (mkResponse 500 (ErrorDetails "Failed to check session"))
    | Some fields =>
        if negb (Js.truthy (f_sessionId fields)) then
          Ret (mkResponse 400 (Error "Session ID is required"))
        else
          let sessionId :=
            match f_sessionId fields with Some i => i | None => "" end in
          fetched <- await SelectSession sessionId ;;
          match fetched with
          | SessionRow sessionData =>
              let now := clock env 0 in
              let expiresAt := se_expires_at sessionData in
              if expiresAt <? now then
                _ <- await DeleteSession sessionId ;;
                Ret expired
              else
                _ <- await UpdateLastAccessed sessionId (clock env 1) ;;
                Ret (mkResponse 200
                       (SessionValid (se_email sessionData)
                          (se_expires_at sessionData)))
          | _ => Ret not_found
          end
    end.

End CheckSession.

(** The three endpoints run to completion on a store. *)
Definition send_code (env : Env) (net : Net) (event : Event) (s : Store)
  : Response * Store := run net (SendCode.handler env event) s.

Definition verify_code (env : Env) (net : Net) (event : Event) (s : Store)
  : Response * Store := run net (VerifyCode.handler env event) s.

Definition check_session (env : Env) (net : Net) (event : Event) (s : Store)
  : Response * Store := run net (CheckSession.handler env event) s.

(** The request bodies of the three endpoints. *)
Definition send_event (email : string) : Event :=
  POST (mkFields (Some email) None None).

Definition verify_event (email code : string) : Event :=
  POST (mkFields (Some email) (Some code) None).

Definition check_event (sessionId : string) : Event :=
  POST (mkFields None None (Some sessionId)).

(** A request none of whose calls fails. *)
Definition reliable (db_now : Z) : Net := mkNet (fun _ => false) db_now false.

(** What send-code answers to an email it does not issue a code for. *)
Definition send_rejection (e : string) : Response :=
  if String.eqb e "" then mkResponse 400 (Error "Email is required")
  else if negb (Js.test emailRegex (normalize e)) then
    mkResponse 400 (Error "Invalid email format")
  else
    mkResponse 403
      (Error "Your email is not authorized to access this portal. Please contact your administrator.").

(** [five_digits_from z n]: each of the [n] integers from [z] on prints as a
    string accepted by [codeRegex]. *)
Fixpoint five_digits_from (z : Z) (n : nat) : bool :=
  match n with
  | O => true
  | S n' => Js.test codeRegex (Js.toString z) && five_digits_from (z + 1) n'
  end.


Definition verified (env : Env) : Response :=
  mkResponse 200 (Verified (toHex (randomBytes env))
                    (clock env 2 + SESSION_TTL_MS)).





(** ** Concrete stores, environments and collaborators for the examples *)

Module Scenario.

Definition whitelist : option string := Some "alice@x.com, Bob@Y.org".

(** An environment whose clock reads [t] during the whole request. *)
Definition env_at (t : Z) (entropy : list ascii) : Env :=
  mkEnv whitelist (fun _ => t) 0 entropy.

Definition empty : Store := mkStore [] [].

(** The code row that send-code stores for alice at time 1000. *)
Definition alice_code : VerificationCode :=
  mkCode 1 "alice@x.com" "10000" 1000 601000 false None.

Definition issued : Store := mkStore [alice_code] [].

(** A second code row for alice with the same code, issued at 2000, and the
    table holding both. *)
Definition alice_newer_code : VerificationCode :=
  mkCode 2 "alice@x.com" "10000" 2000 602000 false None.

Definition issued_twice : Store := mkStore [alice_code; alice_newer_code] [].

(** A session of alice that expired at 5000. *)
Definition old_session : Session := mkSession "6162" "alice@x.com" 5000 None.

Definition logged_in : Store := mkStore [] [old_session].

(** Collaborators for which one kind of call fails. *)
Definition update_down (t : Z) : Net :=
  mkNet (fun q => match q with UpdateCodeUsed _ _ => true | _ => false end) t false.

Definition session_insert_down (t : Z) : Net :=
  mkNet (fun q => match q with InsertSession _ _ _ => true | _ => false end) t false.

Definition delete_down (t : Z) : Net :=
  mkNet (fun q => match q with DeleteSession _ => true | _ => false end) t false.



End Scenario.

(** ** What a pattern accepts *)

(** The strings a pattern denotes, independently of the matcher. *)
Inductive Matches : Js.regex -> string -> Prop :=
| MEps : Matches Js.Eps EmptyString
| MClass p c : p c = true -> Matches (Js.Class p) (String c EmptyString)
| MSeq r1 r2 s1 s2 :
    Matches r1 s1 -> Matches r2 s2 -> Matches (Js.Seq r1 r2) (s1 ++ s2)
| MAltL r1 r2 s : Matches r1 s -> Matches (Js.Alt r1 r2) s
| MAltR r1 r2 s : Matches r2 s -> Matches (Js.Alt r1 r2) s
| MStarNil r : Matches (Js.Star r) EmptyString
| MStarApp r s1 s2 :
    Matches r s1 -> Matches (Js.Star r) s2 -> Matches (Js.Star r) (s1 ++ s2).

(** Every character of [s] satisfies [p]. *)
Fixpoint all_chars (p : ascii -> bool) (s : string) : bool :=
  match s with
  | EmptyString => true
  | String c s' => p c && all_chars p s'
  end.

(** ** Reading hexadecimal back *)

(** [0-9a-f] *)
Definition lowerHex (c : ascii) : bool :=
  let n := N_of_ascii c in
  (((48 <=? n) && (n <=? 57)) || ((97 <=? n) && (n <=? 102)))%N.

(** The value of a hexadecimal digit. *)
Definition hexValue (c : ascii) : N :=
  let n := N_of_ascii c in
  if (n <=? 57)%N then (n - 48)%N else (n - 87)%N.

(** The bytes a string of hexadecimal digit pairs stands for. *)
Fixpoint fromHex (s : string) : list ascii :=
  match s with
  | String hi (String lo s') =>
      ascii_of_N (16 * hexValue hi + hexValue lo) :: fromHex s'
  | _ => []
  end.

(** Characters other than [;] and other than [=]. *)
Definition not_semicolon (c : ascii) : bool := negb (Ascii.eqb c ";").

Definition not_equals (c : ascii) : bool := negb (Ascii.eqb c "=").

Definition not_comma (c : ascii) : bool := negb (Ascii.eqb c ",").

(** ** The calls a request makes *)

(** The awaited calls of a request run alone on a store, in order. *)
Fixpoint calls {A : Type} (net : Net) (p : Proc A) (s : Store) : list Query :=
  match p with
  | Ret _ => []
  | Call q k => let (r, s') := perform net q s in q :: calls net (k r) s'
  end.

(** ** Sequences of requests *)

Inductive Endpoint : Type := SendCodeFn | VerifyCodeFn | CheckSessionFn.

(** One invocation of a function: the endpoint, what the request reads, how
    the collaborators behave during it, and the event. *)
Record Invocation : Type := mkInvocation {
  inv_endpoint : Endpoint;
  inv_env : Env;
  inv_net : Net;
  inv_event : Event
}.

Definition invoke (i : Invocation) (s : Store) : Response * Store :=
  match inv_endpoint i with
  | SendCodeFn => send_code (inv_env i) (inv_net i) (inv_event i) s
  | VerifyCodeFn => verify_code (inv_env i) (inv_net i) (inv_event i) s
  | CheckSessionFn => check_session (inv_env i) (inv_net i) (inv_event i) s
  end.

(** The store after a sequence of invocations, each run to completion. *)
Fixpoint invoke_all (invs : list Invocation) (s : Store) : Store :=
  match invs with
  | [] => s
  | i :: invs' => invoke_all invs' (snd (invoke i s))
  end.

(** The five ways a validated verify-code request can go, with the calls it
    makes, its response and the store it leaves. *)
Inductive VerifyOutcome (env : Env) (net : Net) (e c : string) (s : Store)
  : list Query -> Response * Store -> Prop :=
| NothingFound :
    fails net (SelectCode (normalize e) c) = true
    \/ select_code (normalize e) c s = None ->
    VerifyOutcome env net e c s [SelectCode (normalize e) c] (VerifyCode.invalid, s)
| FoundExpired r :
    fails net (SelectCode (normalize e) c) = false ->
    select_code (normalize e) c s = Some r ->
    vc_expires_at r < clock env 0 ->
    VerifyOutcome env net e c s
      [SelectCode (normalize e) c; UpdateCodeUsed (vc_id r) None]
      (VerifyCode.expired,
       if fails net (UpdateCodeUsed (vc_id r) None) then s
       else store_mark_used (vc_id r) None s)
| UpdateFailed r :
    fails net (SelectCode (normalize e) c) = false ->
    select_code (normalize e) c s = Some r ->
    clock env 0 <= vc_expires_at r ->
    fails net (UpdateCodeUsed (vc_id r) (Some (clock env 1))) = true ->
    VerifyOutcome env net e c s
      [SelectCode (normalize e) c;
       UpdateCodeUsed (vc_id r) (Some (clock env 1))]
      (mkResponse 500 (Error "Failed to verify code"), s)
| InsertFailed r :
    fails net (SelectCode (normalize e) c) = false ->
    select_code (normalize e) c s = Some r ->
    clock env 0 <= vc_expires_at r ->
    fails net (UpdateCodeUsed (vc_id r) (Some (clock env 1))) = false ->
    fails net (InsertSession (toHex (randomBytes env)) (normalize e)
                 (clock env 2 + SESSION_TTL_MS)) = true ->
    VerifyOutcome env net e c s
      [SelectCode (normalize e) c;
       UpdateCodeUsed (vc_id r) (Some (clock env 1));
       InsertSession (toHex (randomBytes env)) (normalize e)
         (clock env 2 + SESSION_TTL_MS)]
      (mkResponse 500 (Error "Failed to create session"),
       store_mark_used (vc_id r) (Some (clock env 1)) s)
| Redeemed r :
    fails net (SelectCode (normalize e) c) = false ->
    select_code (normalize e) c s = Some r ->
    clock env 0 <= vc_expires_at r ->
    fails net (UpdateCodeUsed (vc_id r) (Some (clock env 1))) = false ->
    fails net (InsertSession (toHex (randomBytes env)) (normalize e)
                 (clock env 2 + SESSION_TTL_MS)) = false ->
    VerifyOutcome env net e c s
      [SelectCode (normalize e) c;
       UpdateCodeUsed (vc_id r) (Some (clock env 1));
       InsertSession (toHex (randomBytes env)) (normalize e)
         (clock env 2 + SESSION_TTL_MS)]
      (verified env,
       store_insert_session (toHex (randomBytes env)) (normalize e)
         (clock env 2 + SESSION_TTL_MS)
         (store_mark_used (vc_id r) (Some (clock env 1)) s)).

(** Row [y] is row [x] with at most [used] switched on (and [used_at]
    set): the identifier, email, code and the two timestamps are those of
    [x], and [y] is used if [x] was. *)
Definition kept_or_marked (x y : VerificationCode) : Prop :=
  vc_id y = vc_id x /\ vc_email y = vc_email x /\ vc_code y = vc_code x
  /\ vc_created_at y = vc_created_at x /\ vc_expires_at y = vc_expires_at x
  /\ (vc_used x = true -> vc_used y = true).

(** ** The client-side gate (auth.js) *)

Module Gate.

(** [s.startsWith(p)] *)
Definition startsWith (p s : string) : bool := String.prefix p s.

(** [s.includes(needle)] on strings. *)
Fixpoint includes (needle s : string) : bool :=
  String.prefix needle s
  || match s with
     | EmptyString => false
     | String _ s' => includes needle s'
     end.

(** [s.split(sep)] for a non-empty separator string: [skip] counts the
    characters of a separator occurrence still to be passed over. *)
Fixpoint splitFrom (sep : string) (skip : nat) (s : string) : list string :=
  match s with
  | EmptyString => [EmptyString]
  | String c s' =>
      match skip with
      | S k => splitFrom sep k s'
      | O =>
          if String.prefix sep s then
            EmptyString :: splitFrom sep (String.length sep - 1) s'
          else match splitFrom sep O s' with
               | h :: t => String c h :: t
               | [] => [String c EmptyString]
               end
      end
  end.

Definition split (sep s : string) : list string := splitFrom sep O s.

(** What the gate reads from the page. *)
Record Page : Type := mkPage {
  document_cookie : string;
  pathname : string
}.

(** What [fetch] followed by [response.json()] gives: an exception, or the
    response of the function. *)
Inductive FetchOutcome : Type :=
| Throws
| Replied (r : Response).

(** What the gate does to the page and the network, in order. *)
Inductive Action : Type :=
| Fetch (sessionId : option string)
    (* fetch('/.netlify/functions/check-session', {method: 'POST', body: {sessionId}}) *)
| SetCookie (assignment : string)          (* document.cookie = .. *)
| SetHref (url : string)                   (* window.location.href = .. *)
| AppendOverlay                            (* document.body.appendChild(loadingOverlay) *)
| RemoveOverlay.                           (* loadingOverlay.remove() *)

(** [response.ok] *)
Definition ok (r : Response) : bool :=
  (200 <=? statusCode r) && (statusCode r <=? 299).

(** Truthiness of [data.valid]. *)
Definition data_valid (r : Response) : bool :=
  match resp_body r with
  | SessionValid _ _ => true
  | _ => false
  end.

(** [redirectToLogin()] *)
Definition redirectToLogin (page : Page) : list Action :=
  if negb (includes "login.html" (pathname page)) then [SetHref "/login.html"]
  else [].

(** [clearSession()] *)
Definition clearSession : list Action :=
  [SetCookie "recruiter_session=; expires=Thu, 01 Jan 1970 00:00:00 UTC; path=/;"].

(** [logout()] *)
Definition logout (page : Page) : list Action :=
  (clearSession ++ redirectToLogin page)%list.

(** [document.cookie.split('; ').find(row => row.startsWith('recruiter_session='))] *)
Definition sessionCookie (page : Page) : option string :=
  find (startsWith "recruiter_session=") (split "; " (document_cookie page)).

(** [sessionCookie.split('=')[1]]; [None] is [undefined]. *)
Definition sessionIdOf (sessionCookie : string) : option string :=
  nth_error (Js.split "=" sessionCookie) 1.

(** [checkAuth()]: its result and what it did. *)
Definition checkAuth (page : Page) (fetch : Fields -> FetchOutcome)
  : bool * list Action :=
  match sessionCookie page with
  | None => (false, redirectToLogin page)
  | Some cookie =>
      let sessionId := sessionIdOf cookie in
      match fetch (mkFields None None sessionId) with
      | Replied response =>
          if negb (ok response) || negb (data_valid response) then
            (false,
             (Fetch sessionId :: clearSession ++ redirectToLogin page)%list)
          else
            (true, [Fetch sessionId])
      | Throws =>
          (false, (Fetch sessionId :: clearSession ++ redirectToLogin page)%list)
      end
  end.

(** The [DOMContentLoaded] listener that guards a page. *)
Definition onPageLoad (page : Page) (fetch : Fields -> FetchOutcome)
  : list Action :=
  if negb (includes "login.html" (pathname page)) then
    let (isAuthenticated, did) := checkAuth page fetch in
    (AppendOverlay :: did ++ (if isAuthenticated then [RemoveOverlay] else []))%list
  else [].

(** The check-session function as the gate's [fetch] sees it. *)
Definition server (env : Env) (net : Net) (s : Store) (fields : Fields)
  : FetchOutcome :=
  Replied (fst (check_session env net (POST fields) s)).

End Gate.

(** * Properties *)

(** ** The ordered lookup *)

Section Lookup.

Lemma insert_created_at_desc_perm r l :
  Permutation (insert_created_at_desc r l) (r :: l).
Proof.
  induction l as [|x l IH]; simpl.
  - apply Permutation_refl.
  - destruct (vc_created_at x <? vc_created_at r).
    + apply Permutation_refl.
    + eapply Permutation_trans; [apply perm_skip, IH | apply perm_swap].
Qed.

Lemma order_created_at_desc_perm l :
  Permutation (order_created_at_desc l) l.
Proof.
  induction l as [|x l IH]; simpl.
  - apply perm_nil.
  - eapply Permutation_trans; [apply insert_created_at_desc_perm|].
    apply perm_skip, IH.
Qed.

Lemma insert_created_at_desc_sorted r l :
  StronglySorted newer_or_equal l ->
  StronglySorted newer_or_equal (insert_created_at_desc r l).
Proof.
  induction 1 as [|x l Hs IH Hx]; simpl.
  - constructor; [constructor | constructor].
  - destruct (vc_created_at x <? vc_created_at r) eqn:E.
    + apply Z.ltb_lt in E.
      constructor; [constructor; assumption|].
      constructor; [unfold newer_or_equal; lia|].
      eapply Forall_impl; [|exact Hx].
      unfold newer_or_equal; intros; lia.
    + apply Z.ltb_ge in E.
      constructor; [exact IH|].
      eapply Permutation_Forall;
        [apply Permutation_sym, insert_created_at_desc_perm|].
      constructor; [exact E | exact Hx].
Qed.

Lemma order_created_at_desc_sorted l :
  StronglySorted newer_or_equal (order_created_at_desc l).
Proof.
  induction l; simpl; [constructor | now apply insert_created_at_desc_sorted].
Qed.

(** The first row of the ordered result is a row of the input and no row of
    the input was created after it. *)
Lemma order_created_at_desc_head l r rest :
  order_created_at_desc l = r :: rest ->
  In r l /\ forall r', In r' l -> vc_created_at r' <= vc_created_at r.
Proof.
  intros E.
  pose proof (order_created_at_desc_perm l) as P.
  pose proof (order_created_at_desc_sorted l) as S.
  rewrite E in P, S.
  split.
  - eapply Permutation_in; [exact P | now left].
  - intros r' Hin.
    apply (Permutation_in _ (Permutation_sym P)) in Hin.
    destruct Hin as [<- | Hin]; [lia|].
    inversion S as [|? ? _ Hall]; subst.
    rewrite Forall_forall in Hall. now apply Hall.
Qed.

Lemma order_created_at_desc_nil l :
  order_created_at_desc l = [] -> l = [].
Proof.
  intros E. pose proof (order_created_at_desc_perm l) as P.
  rewrite E in P. now apply Permutation_nil.
Qed.

Lemma single_limit_1 (A : Type) (l : list A) :
  single (limit 1 l) = hd_error l.
Proof. destruct l as [|x [|y l]]; reflexivity. Qed.

Lemma select_code_hd email code s :
  select_code email code s =
  hd_error (order_created_at_desc
              (filter (matches_code email code) (verification_codes s))).
Proof. apply single_limit_1. Qed.

Lemma select_code_None email code s :
  select_code email code s = None <->
  filter (matches_code email code) (verification_codes s) = [].
Proof.
  rewrite select_code_hd. split.
  - intros E. apply order_created_at_desc_nil.
    destruct (order_created_at_desc _); [reflexivity | discriminate].
  - intros ->. reflexivity.
Qed.

Lemma select_code_Some email code s r :
  select_code email code s = Some r ->
  In r (verification_codes s) /\ matches_code email code r = true /\
  forall r', In r' (verification_codes s) -> matches_code email code r' = true ->
             vc_created_at r' <= vc_created_at r.
Proof.
  rewrite select_code_hd. intros E.
  destruct (order_created_at_desc _) as [|x rest] eqn:O; [discriminate|].
  injection E as ->.
  apply order_created_at_desc_head in O. destruct O as [Hin Hmax].
  apply filter_In in Hin. destruct Hin as [Hin Hm].
  repeat split; try assumption.
  intros r' Hin' Hm'. apply Hmax. apply filter_In. now split.
Qed.


Lemma matches_code_spec email code r :
  matches_code email code r = true <->
  vc_email r = email /\ vc_code r = code /\ vc_used r = false.
Proof.
  unfold matches_code.
  rewrite !andb_true_iff, !String.eqb_eq.
  destruct (vc_used r); simpl; intuition congruence.
Qed.

End Lookup.

(** ** Evaluation of the handlers *)

Section Evaluation.

Variables (env : Env) (net : Net).

Lemma truthy_Some e : Js.truthy (Some e) = true <-> e <> "".
Proof. destruct e; simpl; split; congruence. Qed.

Lemma codeRegex_nonempty c : Js.test codeRegex c = true -> c <> "".
Proof. intros H ->. discriminate H. Qed.

(** A verify-code request with a non-empty email and a five-digit code
    starts with the lookup. *)
Lemma verify_handler_eq e c :
  e <> "" -> Js.test codeRegex c = true ->
  VerifyCode.handler env (verify_event e c) =
  (fetched <- await SelectCode (normalize e) c ;;
   match fetched with
   | CodeRow verificationData =>
       if vc_expires_at verificationData <? clock env 0 then
         _ <- await UpdateCodeUsed (vc_id verificationData) None ;;
         Ret VerifyCode.expired
       else
         updateError <- await UpdateCodeUsed (vc_id verificationData)
                                (Some (clock env 1)) ;;
         match updateError with
         | Failed => Ret (mkResponse 500 (Error "Failed to verify code"))
         | _ =>
             sessionError <- await InsertSession (toHex (randomBytes env))
                                     (normalize e) (clock env 2 + SESSION_TTL_MS) ;;
             match sessionError with
             | Failed => Ret (mkResponse 500 (Error "Failed to create session"))
             | _ => Ret (mkResponse 200
                           (Verified (toHex (randomBytes env))
                              (clock env 2 + SESSION_TTL_MS)))
             end
         end
   | _ => Ret VerifyCode.invalid
   end).
Proof.
  intros He Hc.
  pose proof (codeRegex_nonempty c Hc) as Hc'.
  apply truthy_Some in He. apply truthy_Some in Hc'.
  unfold VerifyCode.handler, verify_event, POST.
  cbn [httpMethod body f_email f_code].
  change (String.eqb "POST" "POST") with true.
  cbn [negb].
  rewrite He, Hc', Hc. reflexivity.
Qed.

Lemma verify_code_invalid e c s :
  e <> "" -> Js.test codeRegex c = true ->
  fails net (SelectCode (normalize e) c) = true
  \/ select_code (normalize e) c s = None ->
  verify_code env net (verify_event e c) s = (VerifyCode.invalid, s).
Proof.
  intros He Hc H. unfold verify_code.
  rewrite verify_handler_eq by assumption. cbn [run]. unfold perform.
  destruct (fails net (SelectCode (normalize e) c)); [reflexivity|].
  destruct H as [H|H]; [discriminate|].
  cbn [exec]. rewrite H. reflexivity.
Qed.

Lemma verify_code_expired e c s r :
  e <> "" -> Js.test codeRegex c = true ->
  fails net (SelectCode (normalize e) c) = false ->
  select_code (normalize e) c s = Some r ->
  vc_expires_at r < clock env 0 ->
  verify_code env net (verify_event e c) s =
  (VerifyCode.expired,
   if fails net (UpdateCodeUsed (vc_id r) None) then s
   else store_mark_used (vc_id r) None s).
Proof.
  intros He Hc Hf Hs Hx. unfold verify_code.
  rewrite verify_handler_eq by assumption. cbn [run]. unfold perform.
  rewrite Hf. cbn [exec]. rewrite Hs.
  apply Z.ltb_lt in Hx. rewrite Hx. cbn [run]. unfold perform.
  destruct (fails net (UpdateCodeUsed (vc_id r) None)); reflexivity.
Qed.

Lemma verify_code_live e c s r :
  e <> "" -> Js.test codeRegex c = true ->
  fails net (SelectCode (normalize e) c) = false ->
  select_code (normalize e) c s = Some r ->
  clock env 0 <= vc_expires_at r ->
  verify_code env net (verify_event e c) s =
  let sessionId := toHex (randomBytes env) in
  let sessionExpiresAt := clock env 2 + SESSION_TTL_MS in
  let marked := store_mark_used (vc_id r) (Some (clock env 1)) s in
  if fails net (UpdateCodeUsed (vc_id r) (Some (clock env 1))) then
    (mkResponse 500 (Error "Failed to verify code"), s)
  else if fails net (InsertSession sessionId (normalize e) sessionExpiresAt) then
    (mkResponse 500 (Error "Failed to create session"), marked)
  else
    (mkResponse 200 (Verified sessionId sessionExpiresAt),
     store_insert_session sessionId (normalize e) sessionExpiresAt marked).
Proof.
  intros He Hc Hf Hs Hx. unfold verify_code.
  rewrite verify_handler_eq by assumption. cbn [run]. unfold perform.
  rewrite Hf. cbn [exec]. rewrite Hs.
  apply Z.ltb_ge in Hx. rewrite Hx. cbn [run]. unfold perform.
  cbv zeta.
  destruct (fails net (UpdateCodeUsed _ _)); [reflexivity|].
  cbn [exec run]. unfold perform.
  destruct (fails net (InsertSession _ _ _)); reflexivity.
Qed.

Lemma send_handler_rejects e :
  e = "" \/ Js.test emailRegex (normalize e) = false
  \/ Js.includes (SendCode.approvedEmails env) (normalize e) = false ->
  SendCode.handler env (send_event e) = Ret (send_rejection e).
Proof.
  intros H.
  unfold SendCode.handler, send_event, POST, send_rejection.
  cbn [httpMethod body f_email].
  change (String.eqb "POST" "POST") with true. cbn [negb].
  destruct (String.eqb_spec e "") as [->|Hne]; [reflexivity|].
  apply truthy_Some in Hne. rewrite Hne. cbn [negb].
  destruct (Js.test emailRegex (normalize e)); [|reflexivity]. cbn [negb].
  destruct H as [H|[H|H]]; [subst; discriminate | discriminate |].
  rewrite H. reflexivity.
Qed.

Lemma send_handler_eq e :
  e <> "" -> Js.test emailRegex (normalize e) = true ->
  Js.includes (SendCode.approvedEmails env) (normalize e) = true ->
  SendCode.handler env (send_event e) =
  (dbError <- await InsertCode (normalize e) (SendCode.code env)
                      (clock env 0 + CODE_TTL_MS) ;;
   match dbError with
   | Failed =>
       Ret (mkResponse 500 (Error "Failed to generate verification code"))
   | _ =>
       sent <- await SendEmail (normalize e) (SendCode.code env) ;;
       match sent with
       | Failed =>
           Ret (mkResponse 200
                  (CodeSentWarning "Code saved but email delivery may be delayed. Please check your spam folder or try again in a moment."))
       | _ =>
           Ret (mkResponse 200 (CodeSent "Verification code sent to your email"))
       end
   end).
Proof.
  intros He Hr Ha. apply truthy_Some in He.
  unfold SendCode.handler, send_event, POST.
  cbn [httpMethod body f_email].
  change (String.eqb "POST" "POST") with true. cbn [negb].
  rewrite He, Hr, Ha. reflexivity.
Qed.

Lemma send_code_issues e s :
  e <> "" -> Js.test emailRegex (normalize e) = true ->
  Js.includes (SendCode.approvedEmails env) (normalize e) = true ->
  send_code env net (send_event e) s =
  let code := SendCode.code env in
  let expiresAt := clock env 0 + CODE_TTL_MS in
  if fails net (InsertCode (normalize e) code expiresAt) then
    (mkResponse 500 (Error "Failed to generate verification code"), s)
  else
    (mkResponse 200
       (if fails net (SendEmail (normalize e) code) then
          CodeSentWarning "Code saved but email delivery may be delayed. Please check your spam folder or try again in a moment."
        else CodeSent "Verification code sent to your email"),
     store_insert_code (db_now net) (normalize e) code expiresAt s).
Proof.
  intros He Hr Ha. unfold send_code.
  rewrite send_handler_eq by assumption. cbn [run]. unfold perform. cbv zeta.
  destruct (fails net (InsertCode _ _ _)); [reflexivity|].
  cbn [exec run]. unfold perform.
  destruct (fails net (SendEmail _ _)); [reflexivity|].
  destruct (mail_rejected net); reflexivity.
Qed.

(** A check-session request with a non-empty identifier starts with the
    point lookup. *)
Lemma check_handler_eq sid :
  sid <> "" ->
  CheckSession.handler env (check_event sid) =
  (fetched <- await SelectSession sid ;;
   match fetched with
   | SessionRow sessionData =>
       if se_expires_at sessionData <? clock env 0 then
         _ <- await DeleteSession sid ;;
         Ret CheckSession.expired
       else
         _ <- await UpdateLastAccessed sid (clock env 1) ;;
         Ret (mkResponse 200
                (SessionValid (se_email sessionData) (se_expires_at sessionData)))
   | _ => Ret CheckSession.not_found
   end).
Proof.
  intros Hs. apply truthy_Some in Hs.
  unfold CheckSession.handler, check_event, POST.
  cbn [httpMethod body f_sessionId].
  change (String.eqb "POST" "POST") with true. cbn [negb].
  rewrite Hs. reflexivity.
Qed.

Lemma check_session_not_found sid s :
  sid <> "" ->
  fails net (SelectSession sid) = true \/ select_session sid s = None ->
  check_session env net (check_event sid) s = (CheckSession.not_found, s).
Proof.
  intros Hs H. unfold check_session.
  rewrite check_handler_eq by assumption. cbn [run]. unfold perform.
  destruct (fails net (SelectSession sid)); [reflexivity|].
  destruct H as [H|H]; [discriminate|].
  cbn [exec]. rewrite H. reflexivity.
Qed.

Lemma check_session_expired sid s r :
  sid <> "" ->
  fails net (SelectSession sid) = false ->
  select_session sid s = Some r ->
  se_expires_at r < clock env 0 ->
  check_session env net (check_event sid) s =
  (CheckSession.expired,
   if fails net (DeleteSession sid) then s else store_delete_session sid s).
Proof.
  intros Hs Hf Hr Hx. unfold check_session.
  rewrite check_handler_eq by assumption. cbn [run]. unfold perform.
  rewrite Hf. cbn [exec]. rewrite Hr.
  apply Z.ltb_lt in Hx. rewrite Hx. cbn [run]. unfold perform.
  destruct (fails net (DeleteSession sid)); reflexivity.
Qed.

Lemma check_session_valid sid s r :
  sid <> "" ->
  fails net (SelectSession sid) = false ->
  select_session sid s = Some r ->
  clock env 0 <= se_expires_at r ->
  check_session env net (check_event sid) s =
  (mkResponse 200 (SessionValid (se_email r) (se_expires_at r)),
   if fails net (UpdateLastAccessed sid (clock env 1)) then s
   else store_touch_session sid (clock env 1) s).
Proof.
  intros Hs Hf Hr Hx. unfold check_session.
  rewrite check_handler_eq by assumption. cbn [run]. unfold perform.
  rewrite Hf. cbn [exec]. rewrite Hr.
  apply Z.ltb_ge in Hx. rewrite Hx. cbn [run]. unfold perform.
  destruct (fails net (UpdateLastAccessed sid _)); reflexivity.
Qed.

End Evaluation.

(** ** Marking a code used *)

Section Marking.

Variables (email code : string).

Lemma mark_used_matches id t r :
  matches_code email code (mark_used id t r) =
  matches_code email code r && negb (Nat.eqb (vc_id r) id).
Proof.
  unfold mark_used. destruct (Nat.eqb (vc_id r) id); simpl.
  - unfold matches_code; simpl. now rewrite !andb_false_r.
  - now rewrite andb_true_r.
Qed.

Lemma mark_used_id id t r : vc_id (mark_used id t r) = vc_id r.
Proof. unfold mark_used. now destruct (Nat.eqb (vc_id r) id). Qed.

Lemma mark_used_other id t r : vc_id r <> id -> mark_used id t r = r.
Proof.
  intros H. unfold mark_used. apply Nat.eqb_neq in H. now rewrite H.
Qed.

Lemma mark_used_self t r : vc_used (mark_used (vc_id r) t r) = true.
Proof. unfold mark_used. now rewrite Nat.eqb_refl. Qed.

(** After the update, the rows that still match are the rows that matched
    before and have another [id]. *)
Lemma filter_matches_mark_used id t l :
  filter (matches_code email code) (map (mark_used id t) l) =
  filter (fun r => negb (Nat.eqb (vc_id r) id))
         (filter (matches_code email code) l).
Proof.
  induction l as [|x l IH]; [reflexivity|].
  cbn [map filter]. rewrite mark_used_matches.
  destruct (matches_code email code x); cbn [andb filter].
  - destruct (Nat.eqb (vc_id x) id) eqn:E; cbn [negb].
    + exact IH.
    + rewrite mark_used_other by now apply Nat.eqb_neq. now rewrite IH.
  - exact IH.
Qed.


Lemma select_code_sessions_irrelevant s sessions' :
  select_code email code (mkStore (verification_codes s) sessions')
  = select_code email code s.
Proof. reflexivity. Qed.

End Marking.

(** ** The lookup policy of verify-code *)

Section LookupPolicy.

Variables (env : Env) (net : Net).

Lemma perform_select_code_row e c s r :
  fst (perform net (SelectCode e c) s) = CodeRow r ->
  fails net (SelectCode e c) = false /\ select_code e c s = Some r.
Proof.
  unfold perform. destruct (fails net (SelectCode e c)); [discriminate|].
  cbn [exec]. destruct (select_code e c s); cbn [fst]; [|discriminate].
  intros [= ->]. now split.
Qed.

Lemma no_match_filter_nil e c s :
  (forall r, In r (verification_codes s) ->
     ~ (vc_email r = e /\ vc_code r = c /\ vc_used r = false)) ->
  filter (matches_code e c) (verification_codes s) = [].
Proof.
  intros H.
  destruct (filter _ _) as [|x l] eqn:E; [reflexivity|].
  assert (Hin : In x (filter (matches_code e c) (verification_codes s)))
    by (rewrite E; now left).
  apply filter_In in Hin. destruct Hin as [Hin Hm].
  apply matches_code_spec in Hm. now elim (H x Hin).
Qed.

(** The code rows after a verify-code call that found row [r]: the rows
    before, with at most the rows of [r]'s [id] marked. *)
Lemma verify_code_codes_after e c s r :
  e <> "" -> Js.test codeRegex c = true ->
  fails net (SelectCode (normalize e) c) = false ->
  select_code (normalize e) c s = Some r ->
  let after := verification_codes (snd (verify_code env net (verify_event e c) s)) in
  after = verification_codes s
  \/ exists t, after = map (mark_used (vc_id r) t) (verification_codes s).
Proof.
  intros He Hc Hf Hs.
  destruct (Z_lt_le_dec (vc_expires_at r) (clock env 0)) as [Hx|Hx]; cbv zeta.
  - rewrite (verify_code_expired env net e c s r He Hc Hf Hs Hx). cbn [snd].
    destruct (fails net (UpdateCodeUsed _ _)); [now left | right; now eexists].
  - rewrite (verify_code_live env net e c s r He Hc Hf Hs Hx). cbv zeta.
    destruct (fails net (UpdateCodeUsed _ _)); [now left|].
    destruct (fails net (InsertSession _ _ _)); right; now eexists.
Qed.

(** C7, as amended: a verify-code call that is a POST with a non-empty
    email and a five-digit code starts by looking up (normalised email,
    code); the row the lookup returns is a stored row with that email and
    code and [used = false], created no earlier than any other such row, and
    it is returned whenever such a row exists and the query is answered;
    rows with another [id], older matching rows among them, are left as they
    were; and when no such row exists the call returns Invalid with status
    401 and changes nothing. *)
Theorem verify_code_selects_newest_unused e c s :
  e <> "" -> Js.test codeRegex c = true ->
  (exists k,
      VerifyCode.handler env (verify_event e c)
      = Call (SelectCode (normalize e) c) k)
  /\ (forall r,
        fst (perform net (SelectCode (normalize e) c) s) = CodeRow r ->
        In r (verification_codes s)
        /\ vc_email r = normalize e /\ vc_code r = c /\ vc_used r = false
        /\ (forall r', In r' (verification_codes s) ->
              vc_email r' = normalize e -> vc_code r' = c -> vc_used r' = false ->
              vc_created_at r' <= vc_created_at r)
        /\ (forall r', In r' (verification_codes s) -> vc_id r' <> vc_id r ->
              In r' (verification_codes
                       (snd (verify_code env net (verify_event e c) s)))))
  /\ ((exists r, In r (verification_codes s)
                 /\ vc_email r = normalize e /\ vc_code r = c /\ vc_used r = false) ->
      fails net (SelectCode (normalize e) c) = false ->
      exists r, fst (perform net (SelectCode (normalize e) c) s) = CodeRow r)
  /\ ((forall r, In r (verification_codes s) ->
         ~ (vc_email r = normalize e /\ vc_code r = c /\ vc_used r = false)) ->
      verify_code env net (verify_event e c) s = (VerifyCode.invalid, s)
      /\ statusCode VerifyCode.invalid = 401).
Proof.
  intros He Hc. repeat split.
  - rewrite verify_handler_eq by assumption. eexists. reflexivity.
  - apply perform_select_code_row in H. destruct H as [_ H].
    now apply select_code_Some in H.
  - apply perform_select_code_row in H. destruct H as [_ H].
    apply select_code_Some in H. destruct H as (_ & H & _).
    now apply matches_code_spec in H.
  - apply perform_select_code_row in H. destruct H as [_ H].
    apply select_code_Some in H. destruct H as (_ & H & _).
    now apply matches_code_spec in H.
  - apply perform_select_code_row in H. destruct H as [_ H].
    apply select_code_Some in H. destruct H as (_ & H & _).
    now apply matches_code_spec in H.
  - intros r' Hin H1 H2 H3.
    apply perform_select_code_row in H. destruct H as [_ H].
    apply select_code_Some in H. destruct H as (_ & _ & H).
    apply H; [assumption|]. now apply matches_code_spec.
  - intros r' Hin Hid.
    apply perform_select_code_row in H. destruct H as [Hf Hs].
    destruct (verify_code_codes_after e c s r He Hc Hf Hs) as [E|[t E]]; rewrite E.
    + assumption.
    + rewrite <- (mark_used_other (vc_id r) t r' Hid). now apply in_map.
  - intros (r & Hin & H1 & H2 & H3) Hf.
    unfold perform. rewrite Hf. cbn [exec].
    destruct (select_code (normalize e) c s) as [x|] eqn:E.
    + now exists x.
    + apply select_code_None in E.
      assert (Hm : In r (filter (matches_code (normalize e) c) (verification_codes s))).
      { apply filter_In. split; [assumption|]. now apply matches_code_spec. }
      rewrite E in Hm. destruct Hm.
  - apply verify_code_invalid; try assumption.
    right. apply select_code_None. now apply no_match_filter_nil.
Qed.

End LookupPolicy.

Lemma verify_code_selects_newest_unused_witness :
  In Scenario.alice_newer_code (verification_codes Scenario.issued_twice)
  /\ vc_email Scenario.alice_newer_code = normalize " Alice@X.com"
  /\ vc_code Scenario.alice_newer_code = "10000"
  /\ vc_used Scenario.alice_newer_code = false
  /\ (forall r', In r' (verification_codes Scenario.issued_twice) ->
        vc_email r' = normalize " Alice@X.com" -> vc_code r' = "10000" ->
        vc_used r' = false ->
        vc_created_at r' <= vc_created_at Scenario.alice_newer_code)
  /\ (forall r', In r' (verification_codes Scenario.issued_twice) ->
        vc_id r' <> vc_id Scenario.alice_newer_code ->
        In r' (verification_codes
                 (snd (verify_code (Scenario.env_at 3000 ["a"%char])
                         (reliable 3000) (verify_event " Alice@X.com" "10000")
                         Scenario.issued_twice)))).
Proof.
  refine (proj1 (proj2 (verify_code_selects_newest_unused
                          (Scenario.env_at 3000 ["a"%char]) (reliable 3000)
                          " Alice@X.com" "10000" Scenario.issued_twice _ _))
            Scenario.alice_newer_code _);
    [discriminate | reflexivity | reflexivity].
Defined.

(** C7 as stated fails for the calls that do not reach the lookup: with no
    row stored for the submitted email and code, a call whose code has four
    digits, a call whose email is empty and a call that is not a POST are
    answered 400, 400 and 405, without any lookup, and not Invalid 401. *)
Lemma unvalidated_call_is_not_answered_invalid :
  let env := Scenario.env_at 2000 [] in
  let net := reliable 2000 in
  let short := verify_event "alice@x.com" "1234" in
  let blank := verify_event "" "99999" in
  let get := mkEvent "GET"
               (Some (mkFields (Some "alice@x.com") (Some "99999") None)) in
  (forall r, In r (verification_codes Scenario.issued) ->
     ~ (vc_email r = "alice@x.com" /\ vc_code r = "1234" /\ vc_used r = false))
  /\ (forall r, In r (verification_codes Scenario.issued) ->
        ~ (vc_code r = "99999" /\ vc_used r = false))
  /\ verify_code env net short Scenario.issued
     = (mkResponse 400 (Error "Invalid code format"), Scenario.issued)
  /\ calls net (VerifyCode.handler env short) Scenario.issued = []
  /\ fst (verify_code env net short Scenario.issued) <> VerifyCode.invalid
  /\ verify_code env net blank Scenario.issued
     = (mkResponse 400 (Error "Email and code are required"), Scenario.issued)
  /\ verify_code env net get Scenario.issued
     = (mkResponse 405 (Error "Method not allowed"), Scenario.issued).
Proof.
  cbv zeta. split; [|split].
  - intros r [<- | []] (_ & H & _). discriminate H.
  - intros r [<- | []] (H & _). discriminate H.
  - repeat split. discriminate.
Qed.

(** ** Expired codes *)

Section ExpiredCodes.

Variables (env : Env) (net : Net).

(** C10: when verify-code finds a code that has expired and the update
    marking it used fails, the failure is ignored: the call still answers
    Expired with status 401, the store is as before, the code is still
    unused, and a later lookup returns it again. *)
Theorem expired_branch_ignores_update_failure e c s r :
  e <> "" -> Js.test codeRegex c = true ->
  fails net (SelectCode (normalize e) c) = false ->
  select_code (normalize e) c s = Some r ->
  vc_expires_at r < clock env 0 ->
  fails net (UpdateCodeUsed (vc_id r) None) = true ->
  verify_code env net (verify_event e c) s = (VerifyCode.expired, s)
  /\ statusCode VerifyCode.expired = 401
  /\ In r (verification_codes s) /\ vc_used r = false
  /\ forall net', fails net' (SelectCode (normalize e) c) = false ->
       fst (perform net' (SelectCode (normalize e) c)
              (snd (verify_code env net (verify_event e c) s))) = CodeRow r.
Proof.
  intros He Hc Hf Hs Hx Hu.
  assert (E : verify_code env net (verify_event e c) s = (VerifyCode.expired, s)).
  { rewrite (verify_code_expired env net e c s r) by assumption.
    now rewrite Hu. }
  pose proof (select_code_Some _ _ _ _ Hs) as (Hin & Hm & _).
  apply matches_code_spec in Hm. destruct Hm as (_ & _ & Hused).
  repeat split; try assumption.
  intros net' Hf'. rewrite E. cbn [snd]. unfold perform.
  rewrite Hf'. cbn [exec]. now rewrite Hs.
Qed.

End ExpiredCodes.

Lemma expired_branch_ignores_update_failure_witness :
  verify_code (Scenario.env_at 700000 []) (Scenario.update_down 700000)
    (verify_event "alice@x.com" "10000") Scenario.issued
  = (VerifyCode.expired, Scenario.issued).
Proof.
  refine (proj1 (expired_branch_ignores_update_failure
                   (Scenario.env_at 700000 []) (Scenario.update_down 700000)
                   "alice@x.com" "10000" Scenario.issued Scenario.alice_code
                   _ _ _ _ _ _));
    [discriminate | reflexivity | reflexivity | reflexivity
    | reflexivity | reflexivity].
Defined.

(** ** Failing writes in verify-code *)

Section FailingWrites.

Variables (env : Env) (net : Net).

(** C3, as amended: when verify-code finds a code that has not expired, a
    failure of the update marking it used gives status 500 with the store
    untouched, and a failure of the session insert after a successful update
    gives status 500 with the code marked used and no session added; when
    the code found has expired, a failure of the update is ignored and the
    answer is Expired (401).  None of these responses carries a sessionId. *)
Theorem verify_code_write_failures e c s r :
  e <> "" -> Js.test codeRegex c = true ->
  fails net (SelectCode (normalize e) c) = false ->
  select_code (normalize e) c s = Some r ->
  let out := verify_code env net (verify_event e c) s in
  let update := UpdateCodeUsed (vc_id r) (Some (clock env 1)) in
  let insert := InsertSession (toHex (randomBytes env)) (normalize e)
                  (clock env 2 + SESSION_TTL_MS) in
  (clock env 0 <= vc_expires_at r -> fails net update = true ->
     out = (mkResponse 500 (Error "Failed to verify code"), s)
     /\ body_sessionId (resp_body (fst out)) = None)
  /\ (clock env 0 <= vc_expires_at r ->
      fails net update = false -> fails net insert = true ->
     out = (mkResponse 500 (Error "Failed to create session"),
            store_mark_used (vc_id r) (Some (clock env 1)) s)
     /\ body_sessionId (resp_body (fst out)) = None
     /\ sessions (snd out) = sessions s
     /\ In (mark_used (vc_id r) (Some (clock env 1)) r)
           (verification_codes (snd out))
     /\ vc_used (mark_used (vc_id r) (Some (clock env 1)) r) = true)
  /\ (vc_expires_at r < clock env 0 ->
      fails net (UpdateCodeUsed (vc_id r) None) = true ->
     out = (VerifyCode.expired, s)
     /\ statusCode (fst out) = 401
     /\ body_sessionId (resp_body (fst out)) = None).
Proof.
  intros He Hc Hf Hs. cbv zeta. repeat apply conj.
  - intros Hx Hu.
    rewrite (verify_code_live env net e c s r) by assumption.
    cbv zeta. rewrite Hu. now split.
  - intros Hx Hu Hi.
    rewrite (verify_code_live env net e c s r) by assumption.
    cbv zeta. rewrite Hu, Hi. cbn [fst snd resp_body body_sessionId].
    repeat split.
    + cbn [store_mark_used verification_codes]. apply in_map.
      now apply select_code_Some in Hs.
    + apply mark_used_self.
  - intros Hx Hu.
    rewrite (verify_code_expired env net e c s r) by assumption.
    rewrite Hu. now repeat split.
Qed.

End FailingWrites.

Lemma verify_code_write_failures_witness :
  verify_code (Scenario.env_at 2000 ["a"%char])
    (Scenario.session_insert_down 2000)
    (verify_event "alice@x.com" "10000") Scenario.issued
  = (mkResponse 500 (Error "Failed to create session"),
     mkStore [mkCode 1 "alice@x.com" "10000" 1000 601000 true (Some 2000)] []).
Proof.
  refine (proj1 (proj1 (proj2 (verify_code_write_failures
                   (Scenario.env_at 2000 ["a"%char])
                   (Scenario.session_insert_down 2000)
                   "alice@x.com" "10000" Scenario.issued Scenario.alice_code
                   _ _ _ _)) _ _ _));
    [discriminate | reflexivity | reflexivity | reflexivity
    | discriminate | reflexivity | reflexivity].
Defined.

(** C3 as stated fails in the expired branch: the write marking the code
    used fails, and the call answers 401, not 500. *)
Lemma expired_update_failure_is_not_internal_error :
  let net := Scenario.update_down 700000 in
  let out := verify_code (Scenario.env_at 700000 []) net
               (verify_event "alice@x.com" "10000") Scenario.issued in
  perform net (UpdateCodeUsed 1 None) Scenario.issued
  = (Failed, Scenario.issued)
  /\ statusCode (fst out) = 401
  /\ statusCode (fst out) <> 500.
Proof. cbv zeta. repeat split. discriminate. Qed.

(** ** Expired codes are never redeemed *)

Section ExpiredNeverRedeems.

Variables (env : Env) (net : Net).

Lemma matching_after_mark e c id t l x :
  In x (filter (matches_code e c) (map (mark_used id t) l)) ->
  In x (filter (matches_code e c) l).
Proof.
  rewrite filter_matches_mark_used. intros H. now apply filter_In in H.
Qed.

(** A later verify-code call on a store all of whose matching unused codes
    have expired answers Expired or Invalid. *)
Lemma verify_code_all_expired env' net' e c s :
  e <> "" -> Js.test codeRegex c = true ->
  (forall x, In x (filter (matches_code (normalize e) c) (verification_codes s)) ->
             vc_expires_at x < clock env' 0) ->
  fst (verify_code env' net' (verify_event e c) s) = VerifyCode.expired
  \/ fst (verify_code env' net' (verify_event e c) s) = VerifyCode.invalid.
Proof.
  intros He Hc Hall.
  destruct (fails net' (SelectCode (normalize e) c)) eqn:Hf.
  { right. rewrite verify_code_invalid; auto. }
  destruct (select_code (normalize e) c s) as [x|] eqn:Hs.
  - left. rewrite (verify_code_expired env' net' e c s x); auto.
    apply Hall. apply select_code_Some in Hs. destruct Hs as (Hin & Hm & _).
    apply filter_In. now split.
  - right. rewrite verify_code_invalid; auto.
Qed.

(** C4, as amended: when verify-code finds a code and every unused code
    stored for (email, code) has expired, the call answers Expired with
    status 401; when the update is applied, the rows with the [id] of the
    code found are marked used; and whether or not the update was applied,
    a repeated call with the same (email, code) at a later time answers
    Expired or Invalid, never success. *)
Theorem expired_code_never_redeems e c s r :
  e <> "" -> Js.test codeRegex c = true ->
  fails net (SelectCode (normalize e) c) = false ->
  select_code (normalize e) c s = Some r ->
  (forall x, In x (filter (matches_code (normalize e) c) (verification_codes s)) ->
             vc_expires_at x < clock env 0) ->
  let out := verify_code env net (verify_event e c) s in
  fst out = VerifyCode.expired
  /\ statusCode (fst out) = 401
  /\ (fails net (UpdateCodeUsed (vc_id r) None) = false ->
      verification_codes (snd out)
      = map (mark_used (vc_id r) None) (verification_codes s)
      /\ forall x, In x (verification_codes (snd out)) ->
                   vc_id x = vc_id r -> vc_used x = true)
  /\ forall env' net', clock env 0 <= clock env' 0 ->
       let again := verify_code env' net' (verify_event e c) (snd out) in
       (fst again = VerifyCode.expired \/ fst again = VerifyCode.invalid)
       /\ statusCode (fst again) = 401.
Proof.
  intros He Hc Hf Hs Hall. cbv zeta.
  assert (Hx : vc_expires_at r < clock env 0).
  { apply Hall. apply select_code_Some in Hs. destruct Hs as (Hin & Hm & _).
    apply filter_In. now split. }
  rewrite (verify_code_expired env net e c s r) by assumption.
  cbn [fst snd]. repeat apply conj; try reflexivity.
  - intros Hu. rewrite Hu. cbn [store_mark_used verification_codes].
    split; [reflexivity|].
    intros x Hin Hid. apply in_map_iff in Hin. destruct Hin as (y & <- & _).
    rewrite mark_used_id in Hid. unfold mark_used.
    apply Nat.eqb_eq in Hid. now rewrite Hid.
  - intros env' net' Hclock.
    assert (H : fst (verify_code env' net' (verify_event e c)
                       (if fails net (UpdateCodeUsed (vc_id r) None) then s
                        else store_mark_used (vc_id r) None s))
                = VerifyCode.expired
                \/ fst (verify_code env' net' (verify_event e c)
                          (if fails net (UpdateCodeUsed (vc_id r) None) then s
                           else store_mark_used (vc_id r) None s))
                   = VerifyCode.invalid).
    { apply verify_code_all_expired; try assumption.
      intros x Hin.
      assert (Hin' : In x (filter (matches_code (normalize e) c)
                             (verification_codes s))).
      { destruct (fails net (UpdateCodeUsed (vc_id r) None)); [assumption|].
        cbn [store_mark_used verification_codes] in Hin.
        now apply matching_after_mark in Hin. }
      specialize (Hall x Hin'). lia. }
    split; [exact H|].
    destruct H as [-> | ->]; reflexivity.
Qed.

End ExpiredNeverRedeems.

Lemma expired_code_never_redeems_witness :
  fst (verify_code (Scenario.env_at 700000 []) (reliable 700000)
         (verify_event "alice@x.com" "10000") Scenario.issued)
  = VerifyCode.expired.
Proof.
  refine (proj1 (expired_code_never_redeems
                   (Scenario.env_at 700000 []) (reliable 700000)
                   "alice@x.com" "10000" Scenario.issued Scenario.alice_code
                   _ _ _ _ _));
    [discriminate | reflexivity | reflexivity | reflexivity |].
  intros x [<- | []]. reflexivity.
Defined.

(** C4 as stated fails when the update of the expired branch fails: the
    call answers Expired and the code is left unused in the store. *)
Lemma expired_code_left_unused_when_update_fails :
  let net := Scenario.update_down 700000 in
  let out := verify_code (Scenario.env_at 700000 []) net
               (verify_event "alice@x.com" "10000") Scenario.issued in
  select_code "alice@x.com" "10000" Scenario.issued = Some Scenario.alice_code
  /\ vc_expires_at Scenario.alice_code < 700000
  /\ fst out = VerifyCode.expired
  /\ verification_codes (snd out) = [Scenario.alice_code]
  /\ vc_used Scenario.alice_code = false.
Proof. cbv zeta. repeat split. Qed.

(** ** Issued codes *)

Section IssuedCodes.

Lemma five_digits_from_sound n : forall z k,
  five_digits_from z n = true -> z <= k < z + Z.of_nat n ->
  Js.test codeRegex (Js.toString k) = true.
Proof.
  induction n as [|n IH]; intros z k H Hk; [lia|].
  cbn [five_digits_from] in H. apply andb_true_iff in H. destruct H as [H0 H1].
  destruct (Z.eq_dec k z) as [->|Hne]; [assumption|].
  apply (IH (z + 1)); [assumption | lia].
Qed.

Lemma five_digits_from_10000 :
  five_digits_from 10000 (Z.to_nat 90000) = true.
Proof. vm_compute. reflexivity. Qed.

Lemma rne_div_bounds v k :
  0 < k -> v / 2 ^ k <= Float64.rne_div v k <= v / 2 ^ k + 1.
Proof.
  intros Hk. unfold Float64.rne_div. cbv zeta.
  destruct (v mod 2 ^ k <? 2 ^ (k - 1)); [lia|].
  destruct (2 ^ (k - 1) <? v mod 2 ^ k); [lia|].
  destruct (Z.even (v / 2 ^ k)); lia.
Qed.

(** Rounding to the nearest keeps the order. *)
Lemma rne_div_mono a b k :
  0 < k -> a <= b -> Float64.rne_div a k <= Float64.rne_div b k.
Proof.
  intros Hk Hab.
  assert (Hd : 0 < 2 ^ k) by (apply Z.pow_pos_nonneg; lia).
  pose proof (Z.div_le_mono a b (2 ^ k) Hd Hab) as Hq.
  destruct (Z.eq_dec (a / 2 ^ k) (b / 2 ^ k)) as [E|N].
  - pose proof (Z.div_mod a (2 ^ k) ltac:(lia)) as Da.
    pose proof (Z.div_mod b (2 ^ k) ltac:(lia)) as Db.
    assert (Hr : a mod 2 ^ k <= b mod 2 ^ k) by (rewrite E in Da; nia).
    unfold Float64.rne_div. cbv zeta. rewrite E.
    destruct (Z.ltb_spec (a mod 2 ^ k) (2 ^ (k - 1)));
      destruct (Z.ltb_spec (b mod 2 ^ k) (2 ^ (k - 1)));
      destruct (Z.ltb_spec (2 ^ (k - 1)) (a mod 2 ^ k));
      destruct (Z.ltb_spec (2 ^ (k - 1)) (b mod 2 ^ k));
      destruct (Z.even (b / 2 ^ k)); lia.
  - pose proof (rne_div_bounds a k Hk). pose proof (rne_div_bounds b k Hk). lia.
Qed.

Lemma round_small v : v < 2 ^ 53 -> Float64.round v = v.
Proof.
  intros H. unfold Float64.round. cbv zeta.
  destruct (Z.leb_spec (Z.log2 v + 1 - 53) 0) as [_|Hk]; [reflexivity|].
  exfalso. destruct (Z.le_gt_cases v 0) as [Hv|Hv].
  - rewrite Z.log2_nonpos in Hk by assumption. lia.
  - pose proof (Z.log2_lt_pow2 v 53 Hv). lia.
Qed.

(** A value of [53 + k] bits rounds within its binade, the upper end
    included. *)
Lemma round_binade v :
  2 ^ 53 <= v ->
  let k := Z.log2 v - 52 in
  0 < k /\ Float64.round v = 2 ^ k * Float64.rne_div v k
  /\ 2 ^ (52 + k) <= Float64.round v <= 2 ^ (53 + k).
Proof.
  intros Hv. cbv zeta.
  assert (Hpos : 0 < v) by (pose proof (Z.pow_pos_nonneg 2 53); lia).
  pose proof (Z.log2_spec v Hpos) as [Hlo Hhi].
  assert (HL : 53 <= Z.log2 v) by (apply Z.log2_le_pow2; lia).
  set (k := Z.log2 v - 52) in *.
  assert (Hk : 0 < k) by lia.
  assert (Hd : 0 < 2 ^ k) by (apply Z.pow_pos_nonneg; lia).
  assert (E : Float64.round v = 2 ^ k * Float64.rne_div v k).
  { unfold Float64.round. cbv zeta.
    replace (Z.log2 v + 1 - 53) with k by lia.
    destruct (Z.leb_spec k 0); [lia | reflexivity]. }
  split; [exact Hk|]. split; [exact E|]. rewrite E.
  pose proof (rne_div_bounds v k Hk) as [B1 B2].
  assert (P1 : 2 ^ (52 + k) = 2 ^ 52 * 2 ^ k) by (apply Z.pow_add_r; lia).
  assert (P2 : 2 ^ (53 + k) = 2 ^ 53 * 2 ^ k) by (apply Z.pow_add_r; lia).
  replace (Z.log2 v) with (52 + k) in Hlo by lia.
  replace (Z.succ (Z.log2 v)) with (53 + k) in Hhi by lia.
  assert (Q1 : 2 ^ 52 <= v / 2 ^ k) by (apply Z.div_le_lower_bound; lia).
  assert (Q2 : v / 2 ^ k < 2 ^ 53) by (apply Z.div_lt_upper_bound; lia).
  nia.
Qed.

Lemma round_mono a b : a <= b -> Float64.round a <= Float64.round b.
Proof.
  intros Hab.
  destruct (Z.lt_ge_cases a (2 ^ 53)) as [Ha|Ha].
  - rewrite (round_small a Ha).
    destruct (Z.lt_ge_cases b (2 ^ 53)) as [Hb|Hb].
    + now rewrite (round_small b Hb).
    + destruct (round_binade b Hb) as (Hk & _ & Hlo & _).
      assert (2 ^ 53 <= 2 ^ (52 + (Z.log2 b - 52)))
        by (apply Z.pow_le_mono_r; lia).
      lia.
  - assert (Hb : 2 ^ 53 <= b) by lia.
    destruct (round_binade a Ha) as (Hka & Ea & _ & Hia).
    destruct (round_binade b Hb) as (Hkb & Eb & Hlb & _).
    assert (Hl : Z.log2 a <= Z.log2 b) by (apply Z.log2_le_mono; lia).
    destruct (Z.eq_dec (Z.log2 a) (Z.log2 b)) as [E|N].
    + rewrite Ea, Eb, E.
      apply Z.mul_le_mono_nonneg_l; [apply Z.pow_nonneg; lia|].
      apply rne_div_mono; lia.
    + assert (2 ^ (53 + (Z.log2 a - 52)) <= 2 ^ (52 + (Z.log2 b - 52)))
        by (apply Z.pow_le_mono_r; lia).
      lia.
Qed.

(** The integer whose decimal form is the generated code lies between
    10000 and 99999, whatever the two roundings do. *)
Lemma generated_number_range n :
  0 <= n < 2 ^ 53 ->
  10000 <= Float64.floor
             (Float64.add (Float64.of_int 10000) (Float64.mul_int n 90000))
        <= 99999.
Proof.
  intros Hn. unfold Float64.floor, Float64.add, Float64.mul_int, Float64.of_int.
  assert (P0 : 0 <= Float64.round (n * 90000)).
  { change 0 with (Float64.round 0) at 1. apply round_mono. lia. }
  assert (P1 : Float64.round (n * 90000) <= 90000 * 2 ^ 53 - 2 ^ 17).
  { replace (90000 * 2 ^ 53 - 2 ^ 17)
      with (Float64.round ((2 ^ 53 - 1) * 90000)) by (vm_compute; reflexivity).
    apply round_mono. lia. }
  assert (S0 : 10000 * 2 ^ 53
               <= Float64.round (10000 * 2 ^ 53 + Float64.round (n * 90000))).
  { replace (10000 * 2 ^ 53) with (Float64.round (10000 * 2 ^ 53)) at 1
      by (vm_compute; reflexivity).
    apply round_mono. lia. }
  assert (S1 : Float64.round (10000 * 2 ^ 53 + Float64.round (n * 90000))
               <= 100000 * 2 ^ 53 - 2 ^ 17).
  { replace (100000 * 2 ^ 53 - 2 ^ 17)
      with (Float64.round (10000 * 2 ^ 53 + (90000 * 2 ^ 53 - 2 ^ 17)))
      by (vm_compute; reflexivity).
    apply round_mono. lia. }
  split.
  - apply Z.div_le_lower_bound; lia.
  - assert (Float64.round (10000 * 2 ^ 53 + Float64.round (n * 90000)) / 2 ^ 53
            < 100000); [|lia].
    apply Z.div_lt_upper_bound; lia.
Qed.

(** The code send-code generates is accepted by verify-code's format check. *)
Lemma code_is_five_digits env :
  0 <= Math_random env < 2 ^ 53 ->
  Js.test codeRegex (SendCode.code env) = true.
Proof.
  intros H. unfold SendCode.code. cbv zeta.
  apply (five_digits_from_sound (Z.to_nat 90000) 10000);
    [exact five_digits_from_10000|].
  rewrite Z2Nat.id by lia.
  pose proof (generated_number_range (Math_random env) H). lia.
Qed.

Variables (env : Env) (net : Net).


End IssuedCodes.

(** ** Single redemption *)

Section SingleRedemption.





End SingleRedemption.



(** ** Two requests racing for one code *)

Section Race.

Variables (net1 net2 : Net).
Hypothesis net1_ok : forall q, fails net1 q = false.
Hypothesis net2_ok : forall q, fails net2 q = false.





End Race.




(** ** The whitelist guard of send-code *)

Section Whitelist.

Variables (env : Env) (net : Net).

(** C5, as amended: for every email whose normalised form is not in the
    whitelist, send-code awaits no call at all, so no row is inserted and
    the store is unchanged; the status is 403 when the email is non-empty
    and its normalised form has the shape of an address, and 400
    otherwise. *)
Theorem send_code_rejects_unlisted e s :
  Js.includes (SendCode.approvedEmails env) (normalize e) = false ->
  SendCode.handler env (send_event e) = Ret (send_rejection e)
  /\ send_code env net (send_event e) s = (send_rejection e, s)
  /\ (e <> "" -> Js.test emailRegex (normalize e) = true ->
      statusCode (fst (send_code env net (send_event e) s)) = 403)
  /\ (e = "" \/ Js.test emailRegex (normalize e) = false ->
      statusCode (fst (send_code env net (send_event e) s)) = 400).
Proof.
  intros H.
  assert (E : SendCode.handler env (send_event e) = Ret (send_rejection e))
    by (apply send_handler_rejects; right; now right).
  unfold send_code. rewrite E. cbn [run fst].
  repeat split.
  - intros He Hr. unfold send_rejection.
    apply String.eqb_neq in He. now rewrite He, Hr.
  - intros [-> | Hr]; [reflexivity|]. unfold send_rejection.
    rewrite Hr. now destruct (String.eqb e "").
Qed.

End Whitelist.

Lemma send_code_rejects_unlisted_witness :
  send_code (Scenario.env_at 1000 []) (reliable 1000)
    (send_event "Carol@x.com") Scenario.issued
  = (mkResponse 403
       (Error "Your email is not authorized to access this portal. Please contact your administrator."),
     Scenario.issued).
Proof.
  refine (proj1 (proj2 (send_code_rejects_unlisted
                   (Scenario.env_at 1000 []) (reliable 1000)
                   "Carol@x.com" Scenario.issued _))).
  reflexivity.
Defined.

(** C5 as stated fails for an email that is not in the whitelist and has
    not the shape of an address: the status is 400, not 403. *)
Lemma unlisted_malformed_email_gets_400 :
  let env := Scenario.env_at 1000 [] in
  Js.includes (SendCode.approvedEmails env) (normalize "not-an-email") = false
  /\ send_code env (reliable 1000) (send_event "not-an-email") Scenario.empty
     = (mkResponse 400 (Error "Invalid email format"), Scenario.empty)
  /\ statusCode (fst (send_code env (reliable 1000)
                        (send_event "not-an-email") Scenario.empty)) <> 403.
Proof. cbv zeta. repeat split. discriminate. Qed.

(** ** Expired sessions *)

Section ExpiredSessions.

Variables (env : Env) (net : Net).

Lemma select_session_after_delete sid s :
  select_session sid (store_delete_session sid s) = None.
Proof.
  unfold select_session, store_delete_session. cbn [sessions].
  assert (E : filter (session_is sid)
                (filter (fun r => negb (session_is sid r)) (sessions s)) = []).
  { induction (sessions s) as [|x l IH]; [reflexivity|].
    cbn [filter]. destruct (session_is sid x) eqn:Ex; cbn [negb filter].
    - exact IH.
    - now rewrite Ex. }
  now rewrite E.
Qed.

(** C6, as amended: a check-session call that finds a session past its
    expiry answers valid:false with reason expired.  When the delete is
    applied, no row with that sessionId remains and every later call
    answers not-found; when the delete fails, the row stays.  In both cases
    every later call with that sessionId answers valid:false, with reason
    expired or not-found. *)
Theorem expired_session_stays_invalid sid s r :
  sid <> "" ->
  fails net (SelectSession sid) = false ->
  select_session sid s = Some r ->
  se_expires_at r < clock env 0 ->
  let out := check_session env net (check_event sid) s in
  fst out = CheckSession.expired
  /\ (fails net (DeleteSession sid) = false ->
      snd out = store_delete_session sid s
      /\ (forall x, In x (sessions (snd out)) -> se_session_id x <> sid)
      /\ forall env' net',
           check_session env' net' (check_event sid) (snd out)
           = (CheckSession.not_found, snd out))
  /\ (fails net (DeleteSession sid) = true -> snd out = s)
  /\ forall env' net', clock env 0 <= clock env' 0 ->
       let again := check_session env' net' (check_event sid) (snd out) in
       fst again = CheckSession.expired \/ fst again = CheckSession.not_found.
Proof.
  intros Hsid Hf Hs Hx. cbv zeta.
  rewrite (check_session_expired env net sid s r Hsid Hf Hs Hx).
  cbn [fst snd]. split; [reflexivity|]. split; [|split].
  - intros Hd. rewrite Hd. split; [reflexivity|]. split.
    + intros x Hin. cbn [store_delete_session sessions] in Hin.
      apply filter_In in Hin. destruct Hin as [_ Hn].
      unfold session_is in Hn. apply negb_true_iff in Hn.
      now apply String.eqb_neq in Hn.
    + intros env' net'. apply check_session_not_found; [assumption|].
      right. apply select_session_after_delete.
  - intros Hd. now rewrite Hd.
  - intros env' net' Hclock.
    destruct (fails net (DeleteSession sid)).
    + destruct (fails net' (SelectSession sid)) eqn:Hf'.
      * right. rewrite check_session_not_found; auto.
      * left. rewrite (check_session_expired env' net' sid s r); auto. lia.
    + right. rewrite check_session_not_found; auto.
      right. apply select_session_after_delete.
Qed.

End ExpiredSessions.

Lemma expired_session_stays_invalid_witness :
  fst (check_session (Scenario.env_at 9000 []) (reliable 9000)
         (check_event "6162") Scenario.logged_in)
  = CheckSession.expired.
Proof.
  refine (proj1 (expired_session_stays_invalid
                   (Scenario.env_at 9000 []) (reliable 9000)
                   "6162" Scenario.logged_in Scenario.old_session _ _ _ _));
    [discriminate | reflexivity | reflexivity | reflexivity].
Defined.

(** C6 as stated fails when the delete fails: the call answers expired, the
    session row is still stored, and the next call answers expired again,
    not not-found. *)
Lemma expired_session_row_kept_when_delete_fails :
  let out := check_session (Scenario.env_at 9000 []) (Scenario.delete_down 9000)
               (check_event "6162") Scenario.logged_in in
  let again := check_session (Scenario.env_at 9500 []) (reliable 9500)
                 (check_event "6162") (snd out) in
  fst out = CheckSession.expired
  /\ sessions (snd out) = [Scenario.old_session]
  /\ fst again = CheckSession.expired
  /\ fst again <> CheckSession.not_found.
Proof. cbv zeta. repeat split. discriminate. Qed.

(** ** A failed e-mail dispatch *)

Section EmailFailure.

Variables (env : Env) (net : Net).



End EmailFailure.



(** ** Email normalisation *)

Section Normalisation.

Variables (env : Env) (net : Net).

(** C9, as amended: two non-empty raw emails with the same normalised form
    give the same handler in each of the three endpoints, whatever the other
    fields of the body, hence the same response and the same store from
    every store. *)
Theorem normalized_emails_same_identity a b code sessionId s :
  a <> "" -> b <> "" -> normalize a = normalize b ->
  let ev_a := POST (mkFields (Some a) code sessionId) in
  let ev_b := POST (mkFields (Some b) code sessionId) in
  SendCode.handler env ev_a = SendCode.handler env ev_b
  /\ VerifyCode.handler env ev_a = VerifyCode.handler env ev_b
  /\ CheckSession.handler env ev_a = CheckSession.handler env ev_b
  /\ send_code env net ev_a s = send_code env net ev_b s
  /\ verify_code env net ev_a s = verify_code env net ev_b s
  /\ check_session env net ev_a s = check_session env net ev_b s.
Proof.
  intros Ha Hb Hn. cbv zeta.
  apply truthy_Some in Ha. apply truthy_Some in Hb.
  assert (Es : SendCode.handler env (POST (mkFields (Some a) code sessionId))
               = SendCode.handler env (POST (mkFields (Some b) code sessionId))).
  { unfold SendCode.handler, POST. cbn [httpMethod body f_email].
    now rewrite Ha, Hb, Hn. }
  assert (Ev : VerifyCode.handler env (POST (mkFields (Some a) code sessionId))
               = VerifyCode.handler env (POST (mkFields (Some b) code sessionId))).
  { unfold VerifyCode.handler, POST. cbn [httpMethod body f_email f_code].
    now rewrite Ha, Hb, Hn. }
  unfold send_code, verify_code, check_session.
  rewrite Es, Ev. repeat split.
Qed.

End Normalisation.

Lemma normalized_emails_same_identity_witness :
  send_code (Scenario.env_at 1000 []) (reliable 1000)
    (send_event "  Alice@X.com ") Scenario.empty
  = send_code (Scenario.env_at 1000 []) (reliable 1000)
      (send_event "alice@x.com") Scenario.empty.
Proof.
  refine (proj1 (proj2 (proj2 (proj2 (normalized_emails_same_identity
            (Scenario.env_at 1000 []) (reliable 1000)
            "  Alice@X.com " "alice@x.com" None None Scenario.empty _ _ _)))));
    [discriminate | discriminate | reflexivity].
Defined.

(** C9 as stated fails for the empty string and a blank string: both
    normalise to the empty string, yet send-code answers them with different
    bodies and verify-code with different statuses. *)
Lemma empty_and_blank_email_differ :
  let env := Scenario.env_at 2000 [] in
  normalize "" = normalize " "
  /\ fst (send_code env (reliable 2000) (send_event "") Scenario.issued)
     = mkResponse 400 (Error "Email is required")
  /\ fst (send_code env (reliable 2000) (send_event " ") Scenario.issued)
     = mkResponse 400 (Error "Invalid email format")
  /\ fst (verify_code env (reliable 2000) (verify_event "" "10000") Scenario.issued)
     = mkResponse 400 (Error "Email and code are required")
  /\ fst (verify_code env (reliable 2000) (verify_event " " "10000") Scenario.issued)
     = mkResponse 401 (Error "Invalid verification code")
  /\ send_code env (reliable 2000) (send_event "") Scenario.issued
     <> send_code env (reliable 2000) (send_event " ") Scenario.issued
  /\ verify_code env (reliable 2000) (verify_event "" "10000") Scenario.issued
     <> verify_code env (reliable 2000) (verify_event " " "10000") Scenario.issued.
Proof. cbv zeta. repeat split; discriminate. Qed.

(** * Further properties of the three functions *)

(** ** send-code on every event *)

Section SendCodeAllEvents.

Variables (env : Env) (net : Net).

(** Every event is either answered at once, with one of the four refusal
    statuses, or is a POST whose email passed the three checks. *)
Lemma send_handler_cases ev :
  (exists r, SendCode.handler env ev = Ret r
             /\ (statusCode r = 405 \/ statusCode r = 500
                 \/ statusCode r = 400 \/ statusCode r = 403))
  \/ (exists e oc os,
         ev = POST (mkFields (Some e) oc os)
         /\ e <> "" /\ Js.test emailRegex (normalize e) = true
         /\ Js.includes (SendCode.approvedEmails env) (normalize e) = true
         /\ SendCode.handler env ev = SendCode.handler env (send_event e)).
Proof.
  destruct ev as [m b]. unfold SendCode.handler. cbn [httpMethod body].
  destruct (String.eqb_spec m "POST") as [->|Hm]; cbn [negb].
  2:{ left. eexists. split; [reflexivity|]. now left. }
  destruct b as [[oe oc os]|].
  2:{ left. eexists. split; [reflexivity|]. right. now left. }
  cbn [f_email].
  destruct (Js.truthy oe) eqn:Ht; cbn [negb].
  2:{ left. eexists. split; [reflexivity|]. right. right. now left. }
  destruct oe as [e|]; [|discriminate Ht].
  destruct (Js.test emailRegex (normalize e)) eqn:Hr; cbn [negb].
  2:{ left. eexists. split; [reflexivity|]. right. right. now left. }
  destruct (Js.includes (SendCode.approvedEmails env) (normalize e)) eqn:Ha;
    cbn [negb].
  2:{ left. eexists. split; [reflexivity|]. now repeat right. }
  right. exists e, oc, os.
  split; [reflexivity|]. split; [now apply truthy_Some|].
  split; [exact Hr|]. split; [exact Ha|].
  unfold send_event, POST. cbn [httpMethod body f_email].
  change (String.eqb "POST" "POST") with true. cbn [negb].
  now rewrite Ht, Hr, Ha.
Qed.

Lemma includes_approved e :
  Js.includes (SendCode.approvedEmails env) (normalize e) = true <->
  exists v w, APPROVED_RECRUITER_EMAILS env = Some v
              /\ In w (Js.split "," v) /\ normalize w = normalize e.
Proof.
  unfold Js.includes, SendCode.approvedEmails. rewrite existsb_exists. split.
  - intros (x & Hin & Hx). apply String.eqb_eq in Hx.
    destruct (APPROVED_RECRUITER_EMAILS env) as [v|]; [|destruct Hin].
    apply in_map_iff in Hin. destruct Hin as (w & Hw & Hin).
    exists v, w. repeat split; congruence.
  - intros (v & w & -> & Hin & Hw). exists (normalize w). split.
    + now apply in_map.
    + apply String.eqb_eq. congruence.
Qed.

Lemma send_calls e s :
  e <> "" -> Js.test emailRegex (normalize e) = true ->
  Js.includes (SendCode.approvedEmails env) (normalize e) = true ->
  calls net (SendCode.handler env (send_event e)) s =
  let insert := InsertCode (normalize e) (SendCode.code env)
                  (clock env 0 + CODE_TTL_MS) in
  if fails net insert then [insert]
  else [insert; SendEmail (normalize e) (SendCode.code env)].
Proof.
  intros He Hr Ha. rewrite send_handler_eq by assumption.
  cbn [calls]. unfold perform. cbv zeta.
  destruct (fails net (InsertCode _ _ _)); [reflexivity|].
  cbn [exec calls]. unfold perform.
  destruct (fails net (SendEmail _ _)); [reflexivity|].
  destruct (mail_rejected net); reflexivity.
Qed.

(** X1: send-code answers 200 exactly for a POST whose email is non-empty,
    has the shape of an address once normalised, equals after normalisation
    some entry of the comma-separated whitelist, and whose insert call
    succeeds; it then appends one unused row, the row that insert call asked
    for, under the normalised email.  In every other case the store is left
    as it was.  Sessions are never touched. *)
Theorem send_code_issues_iff ev s :
  let out := send_code env net ev s in
  (statusCode (fst out) = 200 <->
   exists e oc os,
     ev = POST (mkFields (Some e) oc os)
     /\ e <> "" /\ Js.test emailRegex (normalize e) = true
     /\ (exists v w, APPROVED_RECRUITER_EMAILS env = Some v
                     /\ In w (Js.split "," v) /\ normalize w = normalize e)
     /\ exists code expires_at,
          In (InsertCode (normalize e) code expires_at)
             (calls net (SendCode.handler env ev) s)
          /\ fails net (InsertCode (normalize e) code expires_at) = false)
  /\ (statusCode (fst out) = 200 ->
      exists e code expires_at,
        f_email (match body ev with Some b => b | None => mkFields None None None end)
        = Some e
        /\ In (InsertCode (normalize e) code expires_at)
              (calls net (SendCode.handler env ev) s)
        /\ verification_codes (snd out)
           = (verification_codes s
              ++ [mkCode (next_id s) (normalize e) code (db_now net)
                    expires_at false None])%list)
  /\ (statusCode (fst out) <> 200 -> snd out = s)
  /\ sessions (snd out) = sessions s.
Proof.
  cbv zeta. unfold send_code.
  destruct (send_handler_cases ev) as [(r & E & Hr) | (e & oc & os & -> & He & Hr & Ha & E)].
  - rewrite E. cbn [run fst snd]. repeat split.
    + intros H. exfalso. destruct Hr as [Hr|[Hr|[Hr|Hr]]]; rewrite Hr in H;
        discriminate H.
    + intros (e & oc & os & -> & He & Hx & Hw & _). exfalso.
      apply includes_approved in Hw.
      change (SendCode.handler env (POST (mkFields (Some e) oc os)))
        with (SendCode.handler env (send_event e)) in E.
      rewrite (send_handler_eq env e He Hx Hw) in E. discriminate E.
    + intros H. exfalso. destruct Hr as [Hr|[Hr|[Hr|Hr]]]; rewrite Hr in H;
        discriminate H.
  - rewrite E.
    change (run net (SendCode.handler env (send_event e)) s)
      with (send_code env net (send_event e) s).
    rewrite (send_code_issues env net e s He Hr Ha).
    rewrite (send_calls e s He Hr Ha). cbv zeta.
    destruct (fails net (InsertCode (normalize e) (SendCode.code env)
                           (clock env 0 + CODE_TTL_MS))) eqn:Hf;
      cbn [fst snd statusCode].
    + split; [|split; [|split]]; try discriminate; try reflexivity.
      split; [discriminate|].
      intros (e' & oc' & os' & Hev & _ & _ & _ & c & x & Hin & Hf').
      injection Hev as <- _ _.
      destruct Hin as [Hin | []]. injection Hin as <- <-. congruence.
    + split; [|split; [|split]]; try reflexivity.
      * split; [|reflexivity].
        intros _. exists e, oc, os.
        split; [reflexivity|]. split; [assumption|]. split; [assumption|].
        split; [now apply includes_approved|].
        do 2 eexists. split; [left; reflexivity | exact Hf].
      * intros _. do 3 eexists.
        split; [reflexivity|]. split; [left; reflexivity | reflexivity].
      * intros H. now elim H.
Qed.

End SendCodeAllEvents.

Section SendCodeCalls.

Variables (env : Env) (net : Net).

(** X2: with no whitelist configured, or an empty one, send-code refuses every
    event: it never answers 200, makes no call to the database or the mail
    service, and leaves the store as it was. *)
Theorem send_code_refuses_without_whitelist ev s :
  APPROVED_RECRUITER_EMAILS env = None
  \/ APPROVED_RECRUITER_EMAILS env = Some "" ->
  statusCode (fst (send_code env net ev s)) <> 200
  /\ calls net (SendCode.handler env ev) s = []
  /\ snd (send_code env net ev s) = s.
Proof.
  intros Hw.
  destruct (send_handler_cases env ev)
    as [(r & E & Hr) | (e & oc & os & -> & He & Hr & Ha & E)].
  - unfold send_code. rewrite E. cbn [run calls fst snd].
    repeat split.
    destruct Hr as [Hr|[Hr|[Hr|Hr]]]; rewrite Hr; discriminate.
  - exfalso. unfold Js.includes, SendCode.approvedEmails in Ha.
    destruct Hw as [Hw|Hw]; rewrite Hw in Ha; [discriminate Ha|].
    cbn in Ha. rewrite orb_false_r in Ha. apply String.eqb_eq in Ha.
    rewrite Ha in Hr. discriminate Hr.
Qed.

(** X3: send-code hands a code to the mail service only after the insert of
    that code has succeeded: the mail goes to the address stored in the new
    row and carries the code stored in it, and the call answers 200. *)
Theorem send_code_mails_only_stored_codes ev s to c :
  In (SendEmail to c) (calls net (SendCode.handler env ev) s) ->
  calls net (SendCode.handler env ev) s
  = [InsertCode to c (clock env 0 + CODE_TTL_MS); SendEmail to c]
  /\ fails net (InsertCode to c (clock env 0 + CODE_TTL_MS)) = false
  /\ In (mkCode (next_id s) to c (db_now net) (clock env 0 + CODE_TTL_MS)
           false None)
        (verification_codes (snd (send_code env net ev s)))
  /\ statusCode (fst (send_code env net ev s)) = 200.
Proof.
  intros Hin.
  destruct (send_handler_cases env ev)
    as [(r & E & Hr) | (e & oc & os & -> & He & Hr & Ha & E)].
  { rewrite E in Hin. destruct Hin. }
  unfold send_code. rewrite E in *.
  change (run net (SendCode.handler env (send_event e)) s)
    with (send_code env net (send_event e) s).
  rewrite (send_calls env net e s He Hr Ha) in *. cbv zeta in *.
  rewrite (send_code_issues env net e s He Hr Ha). cbv zeta.
  destruct (fails net (InsertCode (normalize e) _ _)) eqn:Hf.
  - destruct Hin as [Hin|[]]. discriminate Hin.
  - destruct Hin as [Hin|[Hin|[]]]; [discriminate Hin|].
    injection Hin as <- <-. cbn [fst snd statusCode].
    repeat split; try assumption.
    cbn [store_insert_code verification_codes].
    apply in_or_app. right. now left.
Qed.

End SendCodeCalls.

Lemma send_code_refuses_without_whitelist_witness :
  statusCode (fst (send_code (mkEnv None (fun _ => 1000) 0 [])
                     (reliable 1000) (send_event "alice@x.com") Scenario.empty))
  <> 200.
Proof.
  refine (proj1 (send_code_refuses_without_whitelist
                   (mkEnv None (fun _ => 1000) 0 []) (reliable 1000)
                   (send_event "alice@x.com") Scenario.empty _)).
  left. reflexivity.
Defined.

Lemma send_code_mails_only_stored_codes_witness :
  calls (reliable 1000)
    (SendCode.handler (Scenario.env_at 1000 []) (send_event " Alice@x.com"))
    Scenario.empty
  = [InsertCode "alice@x.com" "10000" (1000 + CODE_TTL_MS);
     SendEmail "alice@x.com" "10000"].
Proof.
  refine (proj1 (send_code_mails_only_stored_codes
                   (Scenario.env_at 1000 []) (reliable 1000)
                   (send_event " Alice@x.com") Scenario.empty
                   "alice@x.com" "10000" _)).
  right. left. reflexivity.
Defined.

(** ** verify-code on every event *)

Section VerifyCodeAllEvents.

Variables (env : Env) (net : Net).

(** Every event is either answered at once with 405, 500 or 400, or is a
    POST with a non-empty email and a five-digit code. *)
Lemma verify_handler_cases ev :
  (exists r, VerifyCode.handler env ev = Ret r
             /\ (statusCode r = 405 \/ statusCode r = 500 \/ statusCode r = 400))
  \/ (exists e c os,
         ev = POST (mkFields (Some e) (Some c) os)
         /\ e <> "" /\ Js.test codeRegex c = true
         /\ VerifyCode.handler env ev = VerifyCode.handler env (verify_event e c)).
Proof.
  destruct ev as [m b]. unfold VerifyCode.handler. cbn [httpMethod body].
  destruct (String.eqb_spec m "POST") as [->|Hm]; cbn [negb].
  2:{ left. eexists. split; [reflexivity|]. now left. }
  destruct b as [[oe oc os]|].
  2:{ left. eexists. split; [reflexivity|]. right. now left. }
  cbn [f_email f_code].
  destruct (Js.truthy oe) eqn:Ht; cbn [negb orb].
  2:{ left. eexists. split; [reflexivity|]. now repeat right. }
  destruct (Js.truthy oc) eqn:Htc; cbn [negb].
  2:{ left. eexists. split; [reflexivity|]. now repeat right. }
  destruct oe as [e|]; [|discriminate Ht].
  destruct oc as [c|]; [|discriminate Htc].
  destruct (Js.test codeRegex c) eqn:Hc; cbn [negb].
  2:{ left. eexists. split; [reflexivity|]. now repeat right. }
  right. exists e, c, os.
  split; [reflexivity|]. split; [now apply truthy_Some|]. split; [exact Hc|].
  unfold verify_event, POST. cbn [httpMethod body f_email f_code].
  change (String.eqb "POST" "POST") with true. cbn [negb orb].
  now rewrite Ht, Htc, Hc.
Qed.

Lemma verify_outcome e c s :
  e <> "" -> Js.test codeRegex c = true ->
  VerifyOutcome env net e c s
    (calls net (VerifyCode.handler env (verify_event e c)) s)
    (verify_code env net (verify_event e c) s).
Proof.
  intros He Hc.
  destruct (fails net (SelectCode (normalize e) c)) eqn:Hf.
  { rewrite verify_code_invalid by auto.
    rewrite verify_handler_eq by assumption. cbn [calls]. unfold perform.
    rewrite Hf. cbn [calls]. constructor. now left. }
  destruct (select_code (normalize e) c s) as [r|] eqn:Hs.
  2:{ rewrite verify_code_invalid by auto.
      rewrite verify_handler_eq by assumption. cbn [calls]. unfold perform.
      rewrite Hf. cbn [exec]. rewrite Hs. cbn [calls]. constructor. now right. }
  destruct (Z_lt_le_dec (vc_expires_at r) (clock env 0)) as [Hx|Hx].
  { rewrite (verify_code_expired env net e c s r) by assumption.
    rewrite verify_handler_eq by assumption. cbn [calls]. unfold perform.
    rewrite Hf. cbn [exec]. rewrite Hs.
    pose proof Hx as Hx'. apply Z.ltb_lt in Hx'. rewrite Hx'.
    cbn [calls]. unfold perform.
    pose proof (FoundExpired env net e c s r Hf Hs Hx) as H.
    destruct (fails net (UpdateCodeUsed (vc_id r) None)); exact H. }
  rewrite (verify_code_live env net e c s r) by assumption. cbv zeta.
  rewrite verify_handler_eq by assumption. cbn [calls]. unfold perform.
  rewrite Hf. cbn [exec]. rewrite Hs.
  pose proof Hx as Hx'. apply Z.ltb_ge in Hx'. rewrite Hx'.
  cbn [calls]. unfold perform.
  destruct (fails net (UpdateCodeUsed (vc_id r) (Some (clock env 1)))) eqn:Hu.
  { cbn [calls]. now constructor. }
  cbn [exec calls]. unfold perform.
  destruct (fails net (InsertSession _ _ _)) eqn:Hi; cbn [exec calls].
  - now constructor.
  - now constructor.
Qed.

End VerifyCodeAllEvents.

Section VerifyCodeEffects.

Variables (env : Env) (net : Net).

Lemma kept_or_marked_refl x : kept_or_marked x x.
Proof. unfold kept_or_marked. tauto. Qed.

Lemma kept_or_marked_mark id t x : kept_or_marked x (mark_used id t x).
Proof.
  unfold mark_used.
  destruct (Nat.eqb (vc_id x) id); [|apply kept_or_marked_refl].
  unfold kept_or_marked. cbn. tauto.
Qed.

Lemma Forall2_kept_refl l : Forall2 kept_or_marked l l.
Proof. induction l; constructor; auto using kept_or_marked_refl. Qed.

Lemma Forall2_kept_mark id t l :
  Forall2 kept_or_marked l (map (mark_used id t) l).
Proof. induction l; cbn [map]; constructor; auto using kept_or_marked_mark. Qed.

(** X9: whatever the event, verify-code leaves every code row in place, in
    order, with its identifier, email, code and timestamps, and never
    switches [used] off; it touches the sessions only when it answers 200,
    and then appends exactly the session whose identifier and expiry it
    returns, for the normalised email; a response with another status
    carries no sessionId. *)
Theorem verify_code_store_effect ev s :
  let out := verify_code env net ev s in
  Forall2 kept_or_marked (verification_codes s) (verification_codes (snd out))
  /\ (statusCode (fst out) <> 200 ->
      sessions (snd out) = sessions s
      /\ body_sessionId (resp_body (fst out)) = None)
  /\ (statusCode (fst out) = 200 ->
      exists e,
        f_email (match body ev with Some b => b | None => mkFields None None None end)
        = Some e
        /\ resp_body (fst out)
           = Verified (toHex (randomBytes env)) (clock env 2 + SESSION_TTL_MS)
        /\ sessions (snd out)
           = (sessions s
              ++ [mkSession (toHex (randomBytes env)) (normalize e)
                    (clock env 2 + SESSION_TTL_MS) None])%list).
Proof.
  cbv zeta.
  destruct (verify_handler_cases env ev)
    as [(r & E & Hr) | (e & c & os & -> & He & Hc & E)].
  - unfold verify_code. rewrite E. cbn [run fst snd].
    split; [apply Forall2_kept_refl|]. split.
    + intros _. split; [reflexivity|].
      unfold VerifyCode.handler in E.
      destruct (negb (String.eqb (httpMethod ev) "POST")); [now injection E as <-|].
      destruct (body ev) as [fields|]; [|now injection E as <-].
      destruct (negb (Js.truthy (f_email fields)) || negb (Js.truthy (f_code fields)));
        [now injection E as <-|].
      destruct (negb (Js.test codeRegex _)); [now injection E as <-|].
      discriminate E.
    + intros H. exfalso. destruct Hr as [Hr|[Hr|Hr]]; rewrite Hr in H;
        discriminate H.
  - unfold verify_code. rewrite E.
    change (run net (VerifyCode.handler env (verify_event e c)) s)
      with (verify_code env net (verify_event e c) s).
    pose proof (verify_outcome env net e c s He Hc) as O.
    inversion O as [Hnone | r Hf Hs Hx | r Hf Hs Hx Hu | r Hf Hs Hx Hu Hi
                    | r Hf Hs Hx Hu Hi]; cbn [fst snd].
    + split; [apply Forall2_kept_refl|]. split; [now split|]. discriminate.
    + split.
      { destruct (fails net (UpdateCodeUsed (vc_id r) None));
          [apply Forall2_kept_refl | apply Forall2_kept_mark]. }
      split; [|discriminate]. intros _. split; [|reflexivity].
      now destruct (fails net (UpdateCodeUsed (vc_id r) None)).
    + split; [apply Forall2_kept_refl|]. split; [now split|]. discriminate.
    + split; [apply Forall2_kept_mark|]. split; [now split|]. discriminate.
    + split; [apply Forall2_kept_mark|]. split; [intros Hn; now elim Hn|].
      intros _. exists e. repeat split.
Qed.

(** X10: verify-code asks the database to insert a session only after the
    update marking the looked-up, unexpired code as used has succeeded: the
    calls are then the lookup, that update and the insert, in this order,
    and whether or not the insert succeeds every row with the identifier of
    the code found is used in the store the call leaves. *)
Theorem verify_code_marks_before_session ev s session_id email expires_at :
  In (InsertSession session_id email expires_at)
     (calls net (VerifyCode.handler env ev) s) ->
  exists c r,
    select_code email c s = Some r
    /\ clock env 0 <= vc_expires_at r
    /\ fails net (UpdateCodeUsed (vc_id r) (Some (clock env 1))) = false
    /\ calls net (VerifyCode.handler env ev) s
       = [SelectCode email c;
          UpdateCodeUsed (vc_id r) (Some (clock env 1));
          InsertSession session_id email expires_at]
    /\ forall x, In x (verification_codes (snd (verify_code env net ev s))) ->
                 vc_id x = vc_id r -> vc_used x = true.
Proof.
  intros Hin.
  destruct (verify_handler_cases env ev)
    as [(r & E & Hr) | (e & c & os & -> & He & Hc & E)].
  { rewrite E in Hin. destruct Hin. }
  unfold verify_code. rewrite E in *.
  change (run net (VerifyCode.handler env (verify_event e c)) s)
    with (verify_code env net (verify_event e c) s).
  assert (Hmarked : forall r t sessions' x,
             In x (verification_codes
                     (mkStore (verification_codes (store_mark_used (vc_id r) t s))
                        sessions')) ->
             vc_id x = vc_id r -> vc_used x = true).
  { intros r t sessions' x Hx Hid.
    cbn [verification_codes store_mark_used] in Hx.
    apply in_map_iff in Hx. destruct Hx as (y & <- & _).
    rewrite mark_used_id in Hid. unfold mark_used.
    apply Nat.eqb_eq in Hid. now rewrite Hid. }
  pose proof (verify_outcome env net e c s He Hc) as O.
  inversion O as [Hnone T R | r Hf Hs Hx T R | r Hf Hs Hx Hu T R
                  | r Hf Hs Hx Hu Hi T R | r Hf Hs Hx Hu Hi T R];
    rewrite <- T in Hin; cbn [In] in Hin.
  - destruct Hin as [Hin|[]]; discriminate Hin.
  - destruct Hin as [Hin|[Hin|[]]]; discriminate Hin.
  - destruct Hin as [Hin|[Hin|[]]]; discriminate Hin.
  - destruct Hin as [Hin|[Hin|[Hin|[]]]]; try discriminate Hin.
    injection Hin as <- <- <-. exists c, r. cbn [snd].
    repeat split; try assumption.
    intros x. apply (Hmarked r _ (sessions s)).
  - destruct Hin as [Hin|[Hin|[Hin|[]]]]; try discriminate Hin.
    injection Hin as <- <- <-. exists c, r. cbn [snd].
    repeat split; try assumption.
    intros x. unfold store_insert_session. apply Hmarked.
Qed.

(** X11: verify-code makes no call at all unless the event is a POST with a
    non-empty email and a code of five digits; its first call is then the
    lookup on the normalised email and that code, and it makes at most three
    calls. *)
Theorem verify_code_validates_before_lookup ev s :
  calls net (VerifyCode.handler env ev) s <> [] ->
  exists e c os rest,
    ev = POST (mkFields (Some e) (Some c) os)
    /\ e <> "" /\ Js.test codeRegex c = true
    /\ calls net (VerifyCode.handler env ev) s
       = SelectCode (normalize e) c :: rest
    /\ (length rest <= 2)%nat.
Proof.
  intros Hne.
  destruct (verify_handler_cases env ev)
    as [(r & E & Hr) | (e & c & os & -> & He & Hc & E)].
  { rewrite E in Hne. now elim Hne. }
  exists e, c, os. rewrite E.
  pose proof (verify_outcome env net e c s He Hc) as O.
  inversion O; eexists; repeat split; try assumption; cbn [length]; lia.
Qed.

End VerifyCodeEffects.

Lemma verify_code_marks_before_session_witness :
  exists c r,
    select_code "alice@x.com" c Scenario.issued = Some r
    /\ 2000 <= vc_expires_at r
    /\ fails (Scenario.session_insert_down 2000)
         (UpdateCodeUsed (vc_id r) (Some 2000)) = false
    /\ calls (Scenario.session_insert_down 2000)
         (VerifyCode.handler (Scenario.env_at 2000 ["a"%char])
            (verify_event "alice@x.com" "10000")) Scenario.issued
       = [SelectCode "alice@x.com" c;
          UpdateCodeUsed (vc_id r) (Some 2000);
          InsertSession "61" "alice@x.com" 86402000]
    /\ forall x,
         In x (verification_codes
                 (snd (verify_code (Scenario.env_at 2000 ["a"%char])
                         (Scenario.session_insert_down 2000)
                         (verify_event "alice@x.com" "10000") Scenario.issued))) ->
         vc_id x = vc_id r -> vc_used x = true.
Proof.
  refine (verify_code_marks_before_session
            (Scenario.env_at 2000 ["a"%char]) (Scenario.session_insert_down 2000)
            (verify_event "alice@x.com" "10000") Scenario.issued
            "61" "alice@x.com" 86402000 _).
  right. right. left. reflexivity.
Defined.

Lemma verify_code_validates_before_lookup_witness :
  exists e c os rest,
    verify_event " Alice@X.com" "10000" = POST (mkFields (Some e) (Some c) os)
    /\ e <> "" /\ Js.test codeRegex c = true
    /\ calls (reliable 2000)
         (VerifyCode.handler (Scenario.env_at 2000 [])
            (verify_event " Alice@X.com" "10000")) Scenario.empty
       = SelectCode (normalize e) c :: rest
    /\ (length rest <= 2)%nat.
Proof.
  refine (verify_code_validates_before_lookup
            (Scenario.env_at 2000 []) (reliable 2000)
            (verify_event " Alice@X.com" "10000") Scenario.empty _).
  discriminate.
Defined.

(** ** check-session on every event *)

Section CheckSessionAllEvents.

Variables (env : Env) (net : Net).

Lemma check_handler_cases ev :
  (exists r, CheckSession.handler env ev = Ret r
             /\ (statusCode r = 405 \/ statusCode r = 500 \/ statusCode r = 400))
  \/ (exists oe oc sid,
         ev = POST (mkFields oe oc (Some sid))
         /\ sid <> ""
         /\ CheckSession.handler env ev = CheckSession.handler env (check_event sid)).
Proof.
  destruct ev as [m b]. unfold CheckSession.handler. cbn [httpMethod body].
  destruct (String.eqb_spec m "POST") as [->|Hm]; cbn [negb].
  2:{ left. eexists. split; [reflexivity|]. now left. }
  destruct b as [[oe oc os]|].
  2:{ left. eexists. split; [reflexivity|]. right. now left. }
  cbn [f_sessionId].
  destruct (Js.truthy os) eqn:Ht; cbn [negb].
  2:{ left. eexists. split; [reflexivity|]. now repeat right. }
  destruct os as [sid|]; [|discriminate Ht].
  right. exists oe, oc, sid.
  split; [reflexivity|]. split; [now apply truthy_Some|].
  unfold check_event, POST. cbn [httpMethod body f_sessionId].
  change (String.eqb "POST" "POST") with true. cbn [negb].
  now rewrite Ht.
Qed.

Lemma touch_fields sid t x :
  se_session_id (touch sid t x) = se_session_id x
  /\ se_email (touch sid t x) = se_email x
  /\ se_expires_at (touch sid t x) = se_expires_at x.
Proof. unfold touch. destruct (session_is sid x); now cbn. Qed.

Lemma session_is_touch sid sid' t x :
  session_is sid (touch sid' t x) = session_is sid x.
Proof.
  unfold session_is. now rewrite (proj1 (touch_fields sid' t x)).
Qed.

Lemma filter_session_touch sid sid' t l :
  filter (session_is sid) (map (touch sid' t) l)
  = map (touch sid' t) (filter (session_is sid) l).
Proof.
  induction l as [|x l IH]; [reflexivity|].
  cbn [map filter]. rewrite session_is_touch.
  destruct (session_is sid x); cbn [map]; now rewrite IH.
Qed.

Lemma select_session_after_touch sid t s r :
  select_session sid s = Some r ->
  select_session sid (store_touch_session sid t s) = Some (touch sid t r).
Proof.
  unfold select_session, store_touch_session. cbn [sessions].
  rewrite filter_session_touch.
  destruct (filter (session_is sid) (sessions s)) as [|x [|y l]];
    cbn [single map]; try discriminate.
  now intros [= ->].
Qed.

(** X14: whatever the event, check-session leaves the code rows as they were and
    creates no session: every session stored afterwards was stored before,
    with the same identifier, email and expiry.  In particular it never
    extends a session. *)
Theorem check_session_never_extends ev s :
  let out := check_session env net ev s in
  verification_codes (snd out) = verification_codes s
  /\ forall y, In y (sessions (snd out)) ->
       exists x, In x (sessions s)
                 /\ se_session_id y = se_session_id x
                 /\ se_email y = se_email x
                 /\ se_expires_at y = se_expires_at x.
Proof.
  cbv zeta.
  assert (Hsame : forall y, In y (sessions s) ->
            exists x, In x (sessions s)
                      /\ se_session_id y = se_session_id x
                      /\ se_email y = se_email x
                      /\ se_expires_at y = se_expires_at x)
    by (intros y Hy; exists y; auto).
  destruct (check_handler_cases ev)
    as [(r & E & Hr) | (oe & oc & sid & -> & Hsid & E)].
  { unfold check_session. rewrite E. cbn [run snd]. now split. }
  unfold check_session. rewrite E.
  change (run net (CheckSession.handler env (check_event sid)) s)
    with (check_session env net (check_event sid) s).
  destruct (fails net (SelectSession sid)) eqn:Hf.
  { rewrite check_session_not_found by auto. now split. }
  destruct (select_session sid s) as [r|] eqn:Hs.
  2:{ rewrite check_session_not_found by auto. now split. }
  destruct (Z_lt_le_dec (se_expires_at r) (clock env 0)) as [Hx|Hx].
  - rewrite (check_session_expired env net sid s r) by assumption. cbn [snd].
    destruct (fails net (DeleteSession sid)); [now split|].
    split; [reflexivity|]. intros y Hy.
    cbn [store_delete_session sessions] in Hy. apply filter_In in Hy.
    exists y. tauto.
  - rewrite (check_session_valid env net sid s r) by assumption. cbn [snd].
    destruct (fails net (UpdateLastAccessed sid _)); [now split|].
    split; [reflexivity|]. intros y Hy.
    cbn [store_touch_session sessions] in Hy. apply in_map_iff in Hy.
    destruct Hy as (x & <- & Hx'). exists x. split; [assumption|].
    apply touch_fields.
Qed.

(** X15: a sessionId that no stored session carries, or that several carry, is
    answered valid:false with reason not-found after the one lookup, and
    nothing is written. *)
Theorem check_session_unknown_id sid s :
  sid <> "" ->
  length (filter (session_is sid) (sessions s)) <> 1%nat ->
  check_session env net (check_event sid) s = (CheckSession.not_found, s)
  /\ calls net (CheckSession.handler env (check_event sid)) s
     = [SelectSession sid].
Proof.
  intros Hsid Hlen.
  assert (Hs : select_session sid s = None).
  { unfold select_session.
    destruct (filter (session_is sid) (sessions s)) as [|x [|y l]];
      try reflexivity. now elim Hlen. }
  split; [apply check_session_not_found; auto|].
  rewrite check_handler_eq by assumption. cbn [calls]. unfold perform.
  destruct (fails net (SelectSession sid)); [reflexivity|].
  cbn [exec]. now rewrite Hs.
Qed.

(** X16: a check on a stored session that has not expired ([now <= expires_at],
    the bound included) answers valid:true with the stored email and
    expiry; it changes at most [last_accessed], and a failure of that update
    does not change the answer; every later check made no later than the
    expiry and whose lookup is answered gives the same response. *)
Theorem check_session_valid_is_repeatable sid s r :
  sid <> "" ->
  fails net (SelectSession sid) = false ->
  select_session sid s = Some r ->
  clock env 0 <= se_expires_at r ->
  let out := check_session env net (check_event sid) s in
  fst out = mkResponse 200 (SessionValid (se_email r) (se_expires_at r))
  /\ snd out = (if fails net (UpdateLastAccessed sid (clock env 1)) then s
                else store_touch_session sid (clock env 1) s)
  /\ map se_expires_at (sessions (snd out)) = map se_expires_at (sessions s)
  /\ forall env' net',
       fails net' (SelectSession sid) = false ->
       clock env' 0 <= se_expires_at r ->
       fst (check_session env' net' (check_event sid) (snd out)) = fst out.
Proof.
  intros Hsid Hf Hs Hx. cbv zeta.
  rewrite (check_session_valid env net sid s r Hsid Hf Hs Hx). cbn [fst snd].
  split; [reflexivity|]. split; [reflexivity|]. split.
  - destruct (fails net (UpdateLastAccessed sid (clock env 1))); [reflexivity|].
    cbn [store_touch_session sessions]. rewrite map_map.
    apply map_ext. intros x. apply touch_fields.
  - intros env' net' Hf' Hx'.
    destruct (fails net (UpdateLastAccessed sid (clock env 1))).
    + now rewrite (check_session_valid env' net' sid s r Hsid Hf' Hs Hx').
    + pose proof (select_session_after_touch sid (clock env 1) s r Hs) as Hs'.
      pose proof (touch_fields sid (clock env 1) r) as (_ & Te & Tx).
      rewrite (check_session_valid env' net' sid _ _ Hsid Hf' Hs')
        by (rewrite Tx; exact Hx').
      cbn [fst]. now rewrite Te, Tx.
Qed.

End CheckSessionAllEvents.

Lemma check_session_unknown_id_witness :
  check_session (Scenario.env_at 4000 []) (reliable 4000)
    (check_event "never-issued") Scenario.logged_in
  = (CheckSession.not_found, Scenario.logged_in).
Proof.
  refine (proj1 (check_session_unknown_id
                   (Scenario.env_at 4000 []) (reliable 4000)
                   "never-issued" Scenario.logged_in _ _));
    [discriminate | discriminate].
Defined.

Lemma check_session_valid_is_repeatable_witness :
  fst (check_session (Scenario.env_at 5000 []) (reliable 5000)
         (check_event "6162") Scenario.logged_in)
  = mkResponse 200 (SessionValid "alice@x.com" 5000).
Proof.
  refine (proj1 (check_session_valid_is_repeatable
                   (Scenario.env_at 5000 []) (reliable 5000)
                   "6162" Scenario.logged_in Scenario.old_session _ _ _ _));
    [discriminate | reflexivity | reflexivity | discriminate].
Defined.

(** ** The two format checks *)

Section Patterns.

Lemma append_nil_r s : (s ++ "")%string = s.
Proof. induction s; cbn; congruence. Qed.

Lemma append_assoc s1 s2 s3 :
  ((s1 ++ s2) ++ s3)%string = (s1 ++ (s2 ++ s3))%string.
Proof. induction s1; cbn; congruence. Qed.

Lemma append_eq_nil s1 s2 : (s1 ++ s2)%string = "" -> s1 = "" /\ s2 = "".
Proof. destruct s1; cbn; [auto | discriminate]. Qed.

Lemma nullable_Matches r : Js.nullable r = true <-> Matches r "".
Proof.
  split.
  - induction r; cbn; intros H; try discriminate.
    + constructor.
    + apply andb_true_iff in H. destruct H.
      change "" with ("" ++ "")%string. constructor; auto.
    + apply orb_true_iff in H. destruct H; [apply MAltL | apply MAltR]; auto.
    + constructor.
  - intros H. remember "" as s eqn:Es. induction H; cbn; auto; try discriminate.
    + apply append_eq_nil in Es. destruct Es. rewrite IHMatches1, IHMatches2; auto.
    + rewrite IHMatches; auto.
    + rewrite IHMatches; auto. apply orb_true_r.
Qed.

Lemma deriv_sound c r : forall s, Matches (Js.deriv c r) s -> Matches r (String c s).
Proof.
  induction r; cbn; intros s H.
  - inversion H.
  - inversion H.
  - destruct (b c) eqn:E; inversion H; subst. now constructor.
  - destruct (Js.nullable r1) eqn:N.
    + inversion H as [| | | ? ? ? H1 | ? ? ? H1 | |]; subst.
      * inversion H1; subst.
        change (String c (s1 ++ s2)) with (String c s1 ++ s2)%string.
        constructor; auto.
      * change (String c s) with ("" ++ String c s)%string.
        constructor; [now apply nullable_Matches | auto].
    + inversion H; subst.
      change (String c (s1 ++ s2)) with (String c s1 ++ s2)%string.
      constructor; auto.
  - inversion H; subst; [apply MAltL | apply MAltR]; auto.
  - inversion H; subst.
    change (String c (s1 ++ s2)) with (String c s1 ++ s2)%string.
    constructor; auto.
Qed.

Lemma deriv_complete c r s' :
  Matches r s' -> forall s, s' = String c s -> Matches (Js.deriv c r) s.
Proof.
  induction 1 as [| p c' Hp | r1 r2 s1 s2 H1 IH1 H2 IH2 | r1 r2 s0 H1 IH1
                  | r1 r2 s0 H1 IH1 | r0 | r0 s1 s2 H1 IH1 H2 IH2];
    intros s E; cbn.
  - discriminate E.
  - injection E as <- <-. rewrite Hp. constructor.
  - destruct s1 as [|a s1'].
    + cbn in E. rewrite (proj2 (nullable_Matches r1) H1).
      apply MAltR. now apply IH2.
    + cbn in E. injection E as -> <-.
      destruct (Js.nullable r1).
      * apply MAltL. constructor; auto.
      * constructor; auto.
  - apply MAltL. now apply IH1.
  - apply MAltR. now apply IH1.
  - discriminate E.
  - destruct s1 as [|a s1'].
    + cbn in E. now apply IH2.
    + cbn in E. injection E as -> <-. constructor; auto.
Qed.

(** The matcher accepts exactly the strings the pattern denotes. *)
Lemma test_Matches : forall s r, Js.test r s = true <-> Matches r s.
Proof.
  induction s as [|c s IH]; intros r; cbn.
  - apply nullable_Matches.
  - rewrite IH. split.
    + apply deriv_sound.
    + intros H. now apply (deriv_complete c r (String c s) H).
Qed.

Lemma Matches_star_class p s :
  Matches (Js.Star (Js.Class p)) s <-> all_chars p s = true.
Proof.
  split.
  - intros H. remember (Js.Star (Js.Class p)) as r eqn:Er.
    induction H; try discriminate; [reflexivity|].
    injection Er as ->. inversion H as [| p' c' Hp | | | | |]; subst. cbn.
    rewrite Hp. now apply IHMatches2.
  - induction s as [|c s IH]; cbn; intros H; [constructor|].
    apply andb_true_iff in H. destruct H as [Hc Hs].
    change (String c s) with (String c "" ++ s)%string.
    constructor; [now constructor | auto].
Qed.

Lemma Matches_plus_class p s :
  Matches (Js.Plus (Js.Class p)) s <-> s <> "" /\ all_chars p s = true.
Proof.
  unfold Js.Plus. split.
  - intros H. inversion H as [| | ? ? s1 s2 H1 H2 | | | |]; subst.
    inversion H1 as [| p' c' Hp | | | | |]; subst.
    apply Matches_star_class in H2. cbn.
    split; [discriminate|]. now rewrite Hp, H2.
  - intros [Hne H]. destruct s as [|c s]; [now elim Hne|].
    cbn in H. apply andb_true_iff in H. destruct H as [Hc Hs].
    change (String c s) with (String c "" ++ s)%string.
    constructor; [now constructor | now apply Matches_star_class].
Qed.

Lemma Matches_char a s : Matches (Js.char a) s <-> s = String a "".
Proof.
  unfold Js.char. split.
  - intros H. inversion H as [| p' c' Hp | | | | |]; subst.
    now apply Ascii.eqb_eq in Hp as ->.
  - intros ->. constructor. apply Ascii.eqb_refl.
Qed.

End Patterns.

Section FormatChecks.

(** X5: the email pattern of send-code accepts exactly the strings
    local@domain.tld whose three parts are non-empty and contain neither
    white space nor [@] (the domain and the last part may contain dots). *)
Theorem emailRegex_accepts s :
  Js.test emailRegex s = true <->
  exists local domain tld,
    s = (local ++ "@" ++ domain ++ "." ++ tld)%string
    /\ local <> "" /\ domain <> "" /\ tld <> ""
    /\ all_chars Js.notSpaceAt local = true
    /\ all_chars Js.notSpaceAt domain = true
    /\ all_chars Js.notSpaceAt tld = true.
Proof.
  rewrite test_Matches. unfold emailRegex. split.
  - intros H.
    inversion H as [| | ? ? l s1 Hl H1 | | | |]; subst.
    inversion H1 as [| | ? ? a s2 Ha H2 | | | |]; subst.
    inversion H2 as [| | ? ? d s3 Hd H3 | | | |]; subst.
    inversion H3 as [| | ? ? o t Ho Ht | | | |]; subst.
    apply Matches_plus_class in Hl, Hd, Ht.
    apply Matches_char in Ha, Ho. subst.
    exists l, d, t. tauto.
  - intros (l & d & t & -> & Hl & Hd & Ht & Al & Ad & At).
    constructor; [now apply Matches_plus_class|].
    constructor; [now apply Matches_char|].
    constructor; [now apply Matches_plus_class|].
    constructor; [now apply Matches_char|].
    now apply Matches_plus_class.
Qed.

Lemma codeRegex_length c :
  Js.test codeRegex c = true -> String.length c = 5%nat.
Proof.
  rewrite test_Matches. unfold codeRegex. intros H.
  inversion H as [| | ? ? s1 t1 H1 T1 | | | |]; subst.
  inversion T1 as [| | ? ? s2 t2 H2 T2 | | | |]; subst.
  inversion T2 as [| | ? ? s3 t3 H3 T3 | | | |]; subst.
  inversion T3 as [| | ? ? s4 t4 H4 T4 | | | |]; subst.
  inversion H1; inversion H2; inversion H3; inversion H4; inversion T4; subst.
  reflexivity.
Qed.

(** X8: the code pattern of verify-code accepts exactly the strings of five
    decimal digits. *)
Theorem codeRegex_accepts c :
  Js.test codeRegex c = true <->
  exists d1 d2 d3 d4 d5,
    c = String d1 (String d2 (String d3 (String d4 (String d5 ""))))
    /\ Js.digit d1 = true /\ Js.digit d2 = true /\ Js.digit d3 = true
    /\ Js.digit d4 = true /\ Js.digit d5 = true.
Proof.
  rewrite test_Matches. unfold codeRegex. split.
  - intros H.
    inversion H as [| | ? ? s1 t1 H1 T1 | | | |]; subst.
    inversion T1 as [| | ? ? s2 t2 H2 T2 | | | |]; subst.
    inversion T2 as [| | ? ? s3 t3 H3 T3 | | | |]; subst.
    inversion T3 as [| | ? ? s4 t4 H4 T4 | | | |]; subst.
    inversion H1 as [| p1 d1 D1 | | | | |]; subst.
    inversion H2 as [| p2 d2 D2 | | | | |]; subst.
    inversion H3 as [| p3 d3 D3 | | | | |]; subst.
    inversion H4 as [| p4 d4 D4 | | | | |]; subst.
    inversion T4 as [| p5 d5 D5 | | | | |]; subst.
    exists d1, d2, d3, d4, d5. cbn. tauto.
  - intros (d1 & d2 & d3 & d4 & d5 & -> & D1 & D2 & D3 & D4 & D5).
    change (String d1 (String d2 (String d3 (String d4 (String d5 "")))))
      with (String d1 "" ++ (String d2 "" ++ (String d3 ""
              ++ (String d4 "" ++ String d5 ""))))%string.
    repeat (constructor; [now constructor|]). now constructor.
Qed.

(** X6: the code send-code generates, computed as the program does in
    double arithmetic (the product rounded, then the sum, then the floor),
    is the decimal form of an integer between 10000 and 99999: neither
    rounding can reach 100000; it has five characters and is accepted by
    verify-code's format check. *)
Theorem generated_code_is_five_digits env :
  0 <= Math_random env < 2 ^ 53 ->
  (exists n, 10000 <= n <= 99999 /\ SendCode.code env = Js.toString n)
  /\ Js.test codeRegex (SendCode.code env) = true
  /\ String.length (SendCode.code env) = 5%nat.
Proof.
  intros H.
  pose proof (generated_number_range (Math_random env) H) as Hn.
  pose proof (code_is_five_digits env H) as Hc.
  split; [|split].
  - eexists. split; [exact Hn | reflexivity].
  - exact Hc.
  - now apply codeRegex_length.
Qed.

End FormatChecks.

Lemma generated_code_is_five_digits_witness :
  (exists n, 10000 <= n <= 99999
             /\ SendCode.code (mkEnv None (fun _ => 0) (2 ^ 53 - 1) [])
                = Js.toString n)
  /\ Js.test codeRegex
       (SendCode.code (mkEnv None (fun _ => 0) (2 ^ 53 - 1) [])) = true
  /\ String.length (SendCode.code (mkEnv None (fun _ => 0) (2 ^ 53 - 1) []))
     = 5%nat.
Proof.
  apply (generated_code_is_five_digits
           (mkEnv None (fun _ => 0) (2 ^ 53 - 1) [])).
  cbn. lia.
Defined.

(** Where the two roundings matter: the exact value of
    [10000 + x * 90000] at [x = 300239975158 / 2^53] is a little below
    10003, and the program's doubles give 10003. *)
Lemma generated_code_rounds_up :
  SendCode.code (mkEnv None (fun _ => 0) 300239975158 []) = "10003"
  /\ 10000 + 300239975158 * 90000 / 2 ^ 53 = 10002
  /\ SendCode.code (mkEnv None (fun _ => 0) (2 ^ 53 - 1) []) = "99999"
  /\ SendCode.code (mkEnv None (fun _ => 0) 0 []) = "10000".
Proof. repeat split. Qed.

(** ** Normalisation and session identifiers *)

Section Normalize.

Lemma isWhiteSpace_toLowerCaseChar c :
  Js.isWhiteSpace (Js.toLowerCaseChar c) = Js.isWhiteSpace c.
Proof. destruct c as [[] [] [] [] [] [] [] []]; reflexivity. Qed.

Lemma toLowerCaseChar_idem c :
  Js.toLowerCaseChar (Js.toLowerCaseChar c) = Js.toLowerCaseChar c.
Proof. destruct c as [[] [] [] [] [] [] [] []]; reflexivity. Qed.

Lemma toLowerCase_idem s : Js.toLowerCase (Js.toLowerCase s) = Js.toLowerCase s.
Proof.
  induction s as [|c s IH]; cbn; [reflexivity|].
  now rewrite toLowerCaseChar_idem, IH.
Qed.

Lemma trimStart_toLowerCase s :
  Js.trimStart (Js.toLowerCase s) = Js.toLowerCase (Js.trimStart s).
Proof.
  induction s as [|c s IH]; cbn; [reflexivity|].
  rewrite isWhiteSpace_toLowerCaseChar.
  destruct (Js.isWhiteSpace c); [exact IH | reflexivity].
Qed.

Lemma trimEnd_toLowerCase s :
  Js.trimEnd (Js.toLowerCase s) = Js.toLowerCase (Js.trimEnd s).
Proof.
  induction s as [|c s IH]; cbn; [reflexivity|].
  rewrite IH, isWhiteSpace_toLowerCaseChar.
  destruct (Js.trimEnd s); cbn; [|reflexivity].
  now destruct (Js.isWhiteSpace c).
Qed.

Lemma trimEnd_cons c s :
  Js.trimEnd (String c s)
  = match Js.trimEnd s with
    | EmptyString => if Js.isWhiteSpace c then EmptyString else String c EmptyString
    | String d t => String c (String d t)
    end.
Proof. cbn. now destruct (Js.trimEnd s). Qed.

Lemma trimEnd_idem s : Js.trimEnd (Js.trimEnd s) = Js.trimEnd s.
Proof.
  induction s as [|c s IH]; [reflexivity|].
  rewrite (trimEnd_cons c s).
  destruct (Js.trimEnd s) as [|d t] eqn:E.
  - destruct (Js.isWhiteSpace c) eqn:W; [reflexivity|].
    rewrite trimEnd_cons. cbn [Js.trimEnd]. now rewrite W.
  - rewrite (trimEnd_cons c (String d t)), IH. reflexivity.
Qed.

(** A string that does not start with white space. *)
Lemma trimStart_fixed_trimEnd s :
  Js.trimStart s = s -> Js.trimStart (Js.trimEnd s) = Js.trimEnd s.
Proof.
  destruct s as [|c s]; [reflexivity|]. cbn [Js.trimStart].
  destruct (Js.isWhiteSpace c) eqn:W.
  - intros H. exfalso.
    assert (L : forall u, (String.length (Js.trimStart u) <= String.length u)%nat).
    { induction u as [|a u IHu]; cbn; [lia|].
      destruct (Js.isWhiteSpace a); cbn; lia. }
    specialize (L s). rewrite H in L. cbn in L. lia.
  - intros _. cbn [Js.trimEnd].
    destruct (Js.trimEnd s); rewrite ?W; cbn [Js.trimStart]; now rewrite W.
Qed.

Lemma trimStart_idem s : Js.trimStart (Js.trimStart s) = Js.trimStart s.
Proof.
  induction s as [|c s IH]; cbn; [reflexivity|].
  destruct (Js.isWhiteSpace c) eqn:W; [exact IH|]. cbn. now rewrite W.
Qed.

Lemma trim_idem s : Js.trim (Js.trim s) = Js.trim s.
Proof.
  unfold Js.trim.
  rewrite (trimStart_fixed_trimEnd (Js.trimStart s) (trimStart_idem s)).
  apply trimEnd_idem.
Qed.

Lemma trim_toLowerCase s : Js.trim (Js.toLowerCase s) = Js.toLowerCase (Js.trim s).
Proof. unfold Js.trim. now rewrite trimStart_toLowerCase, trimEnd_toLowerCase. Qed.

(** X7: normalising twice is normalising once: the email a code or a session
    is stored under is already trimmed and in lower case, and is its own
    normal form. *)
Theorem normalize_idempotent e :
  normalize (normalize e) = normalize e
  /\ Js.trim (normalize e) = normalize e
  /\ Js.toLowerCase (normalize e) = normalize e.
Proof.
  unfold normalize. repeat split.
  - now rewrite trim_toLowerCase, trim_idem, toLowerCase_idem.
  - now rewrite trim_toLowerCase, trim_idem.
  - apply toLowerCase_idem.
Qed.

End Normalize.

Section SessionIdentifiers.

Lemma hex_pair_decodes b :
  ascii_of_N (16 * hexValue (hexDigit (N_of_ascii b / 16))
              + hexValue (hexDigit (N_of_ascii b mod 16))) = b.
Proof. destruct b as [[] [] [] [] [] [] [] []]; reflexivity. Qed.

Lemma hex_pair_lowerHex b :
  lowerHex (hexDigit (N_of_ascii b / 16)) = true
  /\ lowerHex (hexDigit (N_of_ascii b mod 16)) = true.
Proof. destruct b as [[] [] [] [] [] [] [] []]; split; reflexivity. Qed.

Lemma fromHex_toHex buf : fromHex (toHex buf) = buf.
Proof.
  induction buf as [|b buf IH]; [reflexivity|].
  cbn [toHex fromHex]. now rewrite hex_pair_decodes, IH.
Qed.

Lemma toHex_lowerHex buf : all_chars lowerHex (toHex buf) = true.
Proof.
  induction buf as [|b buf IH]; [reflexivity|].
  cbn [toHex all_chars].
  destruct (hex_pair_lowerHex b) as [-> ->]. exact IH.
Qed.

Lemma toHex_length buf : String.length (toHex buf) = (2 * length buf)%nat.
Proof. induction buf as [|b buf IH]; cbn [toHex String.length length]; lia. Qed.

(** X13: the session identifier made from the random bytes has two characters
    per byte (64 for the 32 bytes the handler draws), all of them in
    [0-9a-f]; the bytes can be read back from it, so different byte strings
    give different identifiers; and it is empty only for no bytes. *)
Theorem sessionId_encoding buf :
  String.length (toHex buf) = (2 * length buf)%nat
  /\ all_chars lowerHex (toHex buf) = true
  /\ fromHex (toHex buf) = buf
  /\ (forall buf', toHex buf = toHex buf' -> buf = buf')
  /\ (toHex buf = "" <-> buf = []).
Proof.
  split; [apply toHex_length|]. split; [apply toHex_lowerHex|].
  split; [apply fromHex_toHex|]. split.
  - intros buf' H. rewrite <- (fromHex_toHex buf), <- (fromHex_toHex buf').
    now rewrite H.
  - split; [|now intros ->]. destruct buf; [reflexivity | discriminate].
Qed.

End SessionIdentifiers.

(** ** What no sequence of requests does to the code rows *)

Section CodeRowsOverTime.

Lemma kept_or_marked_trans x y z :
  kept_or_marked x y -> kept_or_marked y z -> kept_or_marked x z.
Proof.
  unfold kept_or_marked.
  intros (A1 & A2 & A3 & A4 & A5 & A6) (B1 & B2 & B3 & B4 & B5 & B6).
  repeat split; try congruence. auto.
Qed.

Lemma Forall2_kept_trans l1 : forall l2 l3,
  Forall2 kept_or_marked l1 l2 -> Forall2 kept_or_marked l2 l3 ->
  Forall2 kept_or_marked l1 l3.
Proof.
  induction l1 as [|x l1 IH]; intros l2 l3 H12 H23.
  - inversion H12; subst. inversion H23; subst. constructor.
  - inversion H12; subst. inversion H23; subst.
    constructor; [eapply kept_or_marked_trans; eauto | eapply IH; eauto].
Qed.

Lemma Forall2_kept_ids l1 l2 :
  Forall2 kept_or_marked l1 l2 -> map vc_id l2 = map vc_id l1.
Proof.
  induction 1 as [|x y l1 l2 H _ IH]; [reflexivity|].
  cbn [map]. destruct H as (-> & _). now rewrite IH.
Qed.

Lemma verify_code_keeps_rows env net ev s :
  Forall2 kept_or_marked (verification_codes s)
    (verification_codes (snd (verify_code env net ev s))).
Proof.
  destruct (verify_handler_cases env ev)
    as [(r & E & Hr) | (e & c & os & -> & He & Hc & E)].
  - unfold verify_code. rewrite E. cbn [run snd]. apply Forall2_kept_refl.
  - unfold verify_code. rewrite E.
    change (run net (VerifyCode.handler env (verify_event e c)) s)
      with (verify_code env net (verify_event e c) s).
    pose proof (verify_outcome env net e c s He Hc) as O.
    inversion O as [Hnone | r Hf Hs Hx | r Hf Hs Hx Hu | r Hf Hs Hx Hu Hi
                    | r Hf Hs Hx Hu Hi]; cbn [snd];
      try apply Forall2_kept_refl; try apply Forall2_kept_mark.
    destruct (fails net (UpdateCodeUsed (vc_id r) None));
      [apply Forall2_kept_refl | apply Forall2_kept_mark].
Qed.

Lemma send_code_appends env net ev s :
  verification_codes (snd (send_code env net ev s)) = verification_codes s
  \/ exists r, verification_codes (snd (send_code env net ev s))
               = (verification_codes s ++ [r])%list
               /\ vc_id r = next_id s.
Proof.
  destruct (send_handler_cases env ev)
    as [(r & E & Hr) | (e & oc & os & -> & He & Hr & Ha & E)].
  - left. unfold send_code. now rewrite E.
  - unfold send_code. rewrite E.
    change (run net (SendCode.handler env (send_event e)) s)
      with (send_code env net (send_event e) s).
    rewrite (send_code_issues env net e s He Hr Ha). cbv zeta.
    destruct (fails net (InsertCode _ _ _)); [now left|].
    right. eexists. split; reflexivity.
Qed.

Lemma check_session_keeps_codes env net ev s :
  verification_codes (snd (check_session env net ev s)) = verification_codes s.
Proof.
  destruct (check_handler_cases env ev)
    as [(r & E & Hr) | (oe & oc & sid & -> & Hsid & E)].
  { unfold check_session. now rewrite E. }
  unfold check_session. rewrite E.
  change (run net (CheckSession.handler env (check_event sid)) s)
    with (check_session env net (check_event sid) s).
  destruct (fails net (SelectSession sid)) eqn:Hf.
  { now rewrite check_session_not_found by auto. }
  destruct (select_session sid s) as [r|] eqn:Hs.
  2:{ now rewrite check_session_not_found by auto. }
  destruct (Z_lt_le_dec (se_expires_at r) (clock env 0)) as [Hx|Hx].
  - rewrite (check_session_expired env net sid s r) by assumption. cbn [snd].
    now destruct (fails net (DeleteSession sid)).
  - rewrite (check_session_valid env net sid s r) by assumption. cbn [snd].
    now destruct (fails net (UpdateLastAccessed sid _)).
Qed.

(** One invocation keeps the rows and appends at most one, with the next
    identifier. *)
Lemma invoke_codes_step i s :
  exists kept added,
    verification_codes (snd (invoke i s)) = (kept ++ added)%list
    /\ Forall2 kept_or_marked (verification_codes s) kept
    /\ (added = [] \/ exists r, added = [r] /\ vc_id r = next_id s).
Proof.
  unfold invoke. destruct (inv_endpoint i).
  - destruct (send_code_appends (inv_env i) (inv_net i) (inv_event i) s)
      as [E | (r & E & Hid)]; rewrite E.
    + exists (verification_codes s), []. rewrite app_nil_r.
      repeat split; [apply Forall2_kept_refl | now left].
    + exists (verification_codes s), [r].
      repeat split; [apply Forall2_kept_refl | right; now exists r].
  - exists (verification_codes
              (snd (verify_code (inv_env i) (inv_net i) (inv_event i) s))), [].
    rewrite app_nil_r. repeat split; [apply verify_code_keeps_rows | now left].
  - rewrite check_session_keeps_codes.
    exists (verification_codes s), []. rewrite app_nil_r.
    repeat split; [apply Forall2_kept_refl | now left].
Qed.

(** X17: whatever requests are served, in whatever order and with whatever
    failures, no code row is ever deleted, moved or rewritten: the rows
    stored at the start are still there, in order, at the head of the table,
    each with its identifier, email, code and timestamps, and a row that was
    used is still used. *)
Theorem code_rows_are_never_removed_or_reset invs : forall s,
  exists kept added,
    verification_codes (invoke_all invs s) = (kept ++ added)%list
    /\ Forall2 kept_or_marked (verification_codes s) kept.
Proof.
  induction invs as [|i invs IH]; intros s; cbn [invoke_all].
  - exists (verification_codes s), []. rewrite app_nil_r.
    split; [reflexivity | apply Forall2_kept_refl].
  - destruct (invoke_codes_step i s) as (k1 & a1 & E1 & F1 & _).
    destruct (IH (snd (invoke i s))) as (k2 & a2 & E2 & F2).
    rewrite E1 in F2. apply Forall2_app_inv_l in F2.
    destruct F2 as (k2' & a2' & F2 & _ & ->).
    exists k2', (a2' ++ a2)%list. split.
    + now rewrite E2, app_assoc.
    + eapply Forall2_kept_trans; eauto.
Qed.

Lemma next_id_fresh s : ~ In (next_id s) (map vc_id (verification_codes s)).
Proof.
  unfold next_id. intros H.
  pose proof (list_max_le (map vc_id (verification_codes s))
                (list_max (map vc_id (verification_codes s)))) as [L _].
  specialize (L (Nat.le_refl _)). rewrite Forall_forall in L.
  specialize (L _ H). lia.
Qed.

(** X18: the identifiers of the code rows stay pairwise distinct through every
    sequence of requests, so that an update addressed by [id] reaches one
    row. *)
Theorem code_ids_stay_distinct invs : forall s,
  NoDup (map vc_id (verification_codes s)) ->
  NoDup (map vc_id (verification_codes (invoke_all invs s))).
Proof.
  induction invs as [|i invs IH]; intros s H; cbn [invoke_all]; [exact H|].
  apply IH.
  destruct (invoke_codes_step i s) as (k & a & E & F & Ha).
  rewrite E, map_app, (Forall2_kept_ids _ _ F).
  destruct Ha as [-> | (r & -> & Hid)].
  - cbn [map]. now rewrite app_nil_r.
  - cbn [map]. rewrite Hid.
    apply NoDup_app; [exact H | constructor; [intros [] | constructor] |].
    intros x Hx [<- | []]. now apply (next_id_fresh s).
Qed.

End CodeRowsOverTime.

Lemma code_ids_stay_distinct_witness :
  NoDup (map vc_id (verification_codes
     (invoke_all
        [mkInvocation SendCodeFn (Scenario.env_at 2000 []) (reliable 2000)
           (send_event "bob@y.org");
         mkInvocation VerifyCodeFn (Scenario.env_at 3000 ["a"%char])
           (reliable 3000) (verify_event "alice@x.com" "10000")]
        Scenario.issued))).
Proof.
  apply code_ids_stay_distinct. cbn.
  constructor; [intros [] | constructor].
Defined.

(** ** From issuance to a valid session *)

Section EndToEnd.



End EndToEnd.


(** * The client-side gate *)

Section GateCookie.

Lemma splitFrom_cons sep c s :
  Gate.splitFrom sep 0 (String c s)
  = if String.prefix sep (String c s) then
      EmptyString :: Gate.splitFrom sep (String.length sep - 1) s
    else match Gate.splitFrom sep 0 s with
         | h :: t => String c h :: t
         | [] => [String c EmptyString]
         end.
Proof. reflexivity. Qed.

Lemma prefix_other_char c s :
  not_semicolon c = true -> String.prefix "; " (String c s) = false.
Proof.
  unfold not_semicolon. intros H. apply negb_true_iff, Ascii.eqb_neq in H.
  cbn [String.prefix]. destruct (Ascii.ascii_dec ";"%char c); congruence.
Qed.

Lemma split_row_alone r :
  all_chars not_semicolon r = true -> Gate.split "; " r = [r].
Proof.
  unfold Gate.split. induction r as [|c r IH]; intros H; [reflexivity|].
  cbn [all_chars] in H. apply andb_true_iff in H. destruct H as [Hc Hr].
  now rewrite splitFrom_cons, (prefix_other_char c r Hc), (IH Hr).
Qed.

Lemma split_row_then r rest :
  all_chars not_semicolon r = true ->
  Gate.split "; " (r ++ "; " ++ rest) = r :: Gate.split "; " rest.
Proof.
  unfold Gate.split. induction r as [|c r IH]; intros H.
  - cbn [append]. rewrite splitFrom_cons.
    replace (String.prefix "; " (String ";" (String " " rest))) with true
      by (cbn [String.prefix];
          repeat (destruct (Ascii.ascii_dec _ _); [|congruence]);
          destruct rest; reflexivity).
    reflexivity.
  - cbn [all_chars] in H. apply andb_true_iff in H. destruct H as [Hc Hr].
    change (String c r ++ "; " ++ rest)%string
      with (String c (r ++ "; " ++ rest)).
    now rewrite splitFrom_cons, (prefix_other_char c _ Hc), (IH Hr).
Qed.

(** Splitting the cookie string gives back the cookies it was joined from. *)
Lemma split_concat rows :
  rows <> [] -> Forall (fun r => all_chars not_semicolon r = true) rows ->
  Gate.split "; " (String.concat "; " rows) = rows.
Proof.
  induction rows as [|r rows IH]; intros Hne H; [now elim Hne|].
  inversion H as [|? ? Hr Hrows]; subst.
  destruct rows as [|r' rows'].
  - cbn. now apply split_row_alone.
  - cbn [String.concat]. rewrite (split_row_then r _ Hr).
    f_equal. apply IH; [discriminate | assumption].
Qed.

Lemma js_split_no_sep a v :
  all_chars (fun c => negb (Ascii.eqb c a)) v = true -> Js.split a v = [v].
Proof.
  induction v as [|c v IH]; cbn; intros H; [reflexivity|].
  apply andb_true_iff in H. destruct H as [Hc Hv].
  apply negb_true_iff in Hc. rewrite Hc. now rewrite (IH Hv).
Qed.

Lemma sessionIdOf_value v :
  all_chars not_equals v = true ->
  Gate.sessionIdOf ("recruiter_session=" ++ v) = Some v.
Proof.
  intros H. unfold Gate.sessionIdOf. cbn.
  now rewrite (js_split_no_sep "="%char v H).
Qed.

Lemma find_app_first (f : string -> bool) before x after :
  Forall (fun r => f r = false) before -> f x = true ->
  find f (before ++ x :: after) = Some x.
Proof.
  induction 1 as [|b before Hb _ IH]; intros Hx; cbn [app find].
  - now rewrite Hx.
  - rewrite Hb. now apply IH.
Qed.

(** X20: the gate reads back the session identifier from the cookie string:
    among cookies joined by "; ", none holding a semicolon, the first one
    named recruiter_session is found, and when its value holds no [=] the
    sessionId sent to check-session is that value. *)
Theorem gate_reads_session_cookie before after v pathname :
  Forall (fun r => all_chars not_semicolon r = true) before ->
  Forall (fun r => all_chars not_semicolon r = true) after ->
  Forall (fun r => Gate.startsWith "recruiter_session=" r = false) before ->
  all_chars not_semicolon v = true ->
  all_chars not_equals v = true ->
  let page := Gate.mkPage
                (String.concat "; "
                   (before ++ ("recruiter_session=" ++ v)%string :: after))
                pathname in
  Gate.sessionCookie page = Some ("recruiter_session=" ++ v)%string
  /\ Gate.sessionIdOf ("recruiter_session=" ++ v) = Some v.
Proof.
  intros Hb Ha Hn Hv He. cbv zeta.
  split; [|now apply sessionIdOf_value].
  unfold Gate.sessionCookie. cbn [Gate.document_cookie].
  rewrite split_concat.
  - apply find_app_first; [assumption|].
    unfold Gate.startsWith. cbn. now destruct v.
  - destruct before; discriminate.
  - apply Forall_app. split; [assumption|]. constructor; [|assumption].
    cbn. exact Hv.
Qed.

End GateCookie.

Lemma gate_reads_session_cookie_witness :
  Gate.sessionCookie
    (Gate.mkPage "theme=dark; recruiter_session=6162; lang=en" "/index.html")
  = Some "recruiter_session=6162".
Proof.
  refine (proj1 (gate_reads_session_cookie
                   ["theme=dark"] ["lang=en"] "6162" "/index.html" _ _ _ _ _));
    repeat constructor.
Defined.

Section GateBehaviour.

Variables (page : Gate.Page) (fetch : Fields -> Gate.FetchOutcome).

(** X21: [checkAuth] admits the page exactly when a session cookie is present,
    the check-session call for its value is answered with a 2xx status, and
    the answer says valid; it then has made that one call and has neither
    written the cookie nor navigated. *)
Theorem checkAuth_admits_iff :
  (fst (Gate.checkAuth page fetch) = true <->
   exists cookie r,
     Gate.sessionCookie page = Some cookie
     /\ fetch (mkFields None None (Gate.sessionIdOf cookie)) = Gate.Replied r
     /\ 200 <= statusCode r <= 299
     /\ exists email expiresAt, resp_body r = SessionValid email expiresAt)
  /\ (fst (Gate.checkAuth page fetch) = true ->
      exists cookie,
        Gate.sessionCookie page = Some cookie
        /\ snd (Gate.checkAuth page fetch)
           = [Gate.Fetch (Gate.sessionIdOf cookie)]).
Proof.
  unfold Gate.checkAuth.
  destruct (Gate.sessionCookie page) as [cookie|].
  2:{ split; [split|]; cbn [fst].
      - discriminate.
      - intros (cookie & r & H & _). discriminate H.
      - discriminate. }
  destruct (fetch (mkFields None None (Gate.sessionIdOf cookie))) as [|r] eqn:F.
  { split; [split|]; cbn [fst].
    - discriminate.
    - intros (cookie' & r & [= <-] & H & _). rewrite F in H. discriminate H.
    - discriminate. }
  unfold Gate.ok, Gate.data_valid.
  destruct ((200 <=? statusCode r) && (statusCode r <=? 299)) eqn:Hok;
    cbn [negb orb].
  - destruct (resp_body r) eqn:B; cbn [negb fst snd];
      (split; [split|]; try discriminate;
       try (intros (cookie' & r' & [= <-] & H & _ & e' & x' & H');
            rewrite F in H; injection H as <-; rewrite B in H'; discriminate H')).
    + intros _. exists cookie, r.
      apply andb_true_iff in Hok. destruct Hok as [H1 H2].
      apply Z.leb_le in H1, H2.
      split; [reflexivity|]. split; [exact F|]. split; [now split|].
      exists email, expiresAt. exact B.
    + reflexivity.
    + intros _. now exists cookie.
  - cbn [fst snd]. split; [split|]; try discriminate.
    intros (cookie' & r' & [= <-] & H & [H1 H2] & _).
    rewrite F in H. injection H as <-.
    apply Z.leb_le in H1, H2. rewrite H1, H2 in Hok. discriminate Hok.
Qed.

(** X22: when [checkAuth] refuses, it clears the session cookie whenever one was
    present (after the one check-session call), and it navigates to the
    login page exactly when the page is not the login page itself.  Without
    a session cookie it makes no call. *)
Theorem checkAuth_refusal :
  fst (Gate.checkAuth page fetch) = false ->
  (Gate.sessionCookie page = None ->
   snd (Gate.checkAuth page fetch) = Gate.redirectToLogin page)
  /\ (forall cookie, Gate.sessionCookie page = Some cookie ->
      snd (Gate.checkAuth page fetch)
      = (Gate.Fetch (Gate.sessionIdOf cookie)
         :: Gate.clearSession ++ Gate.redirectToLogin page)%list)
  /\ (In (Gate.SetHref "/login.html") (snd (Gate.checkAuth page fetch)) <->
      Gate.includes "login.html" (Gate.pathname page) = false).
Proof.
  unfold Gate.checkAuth.
  assert (R : In (Gate.SetHref "/login.html") (Gate.redirectToLogin page) <->
              Gate.includes "login.html" (Gate.pathname page) = false).
  { unfold Gate.redirectToLogin.
    destruct (Gate.includes "login.html" (Gate.pathname page)); cbn; split;
      try discriminate; tauto. }
  assert (R' : forall sid,
             In (Gate.SetHref "/login.html")
                (Gate.Fetch sid :: Gate.clearSession ++ Gate.redirectToLogin page)
             <-> Gate.includes "login.html" (Gate.pathname page) = false).
  { intros sid. rewrite <- R. cbn. split.
    - intros [H|[H|H]]; try discriminate H. exact H.
    - intros H. right. now right. }
  destruct (Gate.sessionCookie page) as [cookie|].
  2:{ cbn [fst snd]. intros _. repeat split; try discriminate; apply R. }
  destruct (fetch (mkFields None None (Gate.sessionIdOf cookie))) as [|r].
  { cbn [fst snd]. intros _.
    split; [discriminate|]. split; [now intros c [= <-]|]. apply R'. }
  destruct (negb (Gate.ok r) || negb (Gate.data_valid r)); cbn [fst snd];
    [|discriminate].
  intros _. split; [discriminate|]. split; [now intros c [= <-]|]. apply R'.
Qed.

(** X23: the gate cannot loop: it only ever navigates to /login.html, a path on
    which neither [checkAuth], nor [logout], nor the page-load listener
    navigates, and on which the listener does nothing at all. *)
Theorem gate_never_redirects_on_login_page :
  (forall url,
      In (Gate.SetHref url) (snd (Gate.checkAuth page fetch))
      \/ In (Gate.SetHref url) (Gate.logout page)
      \/ In (Gate.SetHref url) (Gate.onPageLoad page fetch) ->
      url = "/login.html"
      /\ Gate.includes "login.html" (Gate.pathname page) = false)
  /\ Gate.includes "login.html" "/login.html" = true
  /\ (Gate.includes "login.html" (Gate.pathname page) = true ->
      Gate.onPageLoad page fetch = []).
Proof.
  assert (R : forall url, In (Gate.SetHref url) (Gate.redirectToLogin page) ->
              url = "/login.html"
              /\ Gate.includes "login.html" (Gate.pathname page) = false).
  { intros url. unfold Gate.redirectToLogin.
    destruct (Gate.includes "login.html" (Gate.pathname page)); cbn.
    - intros [].
    - intros [[= <-]|[]]. now split. }
  assert (C : forall url, In (Gate.SetHref url) (snd (Gate.checkAuth page fetch)) ->
              url = "/login.html"
              /\ Gate.includes "login.html" (Gate.pathname page) = false).
  { intros url. unfold Gate.checkAuth.
    destruct (Gate.sessionCookie page) as [cookie|]; [|apply R].
    destruct (fetch _) as [|r].
    - cbn [snd In app Gate.clearSession].
      intros [H|[H|H]]; try discriminate H. now apply R.
    - destruct (negb (Gate.ok r) || negb (Gate.data_valid r));
        cbn [snd In app Gate.clearSession].
      + intros [H|[H|H]]; try discriminate H. now apply R.
      + intros [H|[]]. discriminate H. }
  split; [|split].
  - intros url [H|[H|H]].
    + now apply C.
    + unfold Gate.logout in H. cbn [app Gate.clearSession In] in H.
      destruct H as [H|H]; [discriminate H | now apply R].
    + unfold Gate.onPageLoad in H.
      destruct (Gate.includes "login.html" (Gate.pathname page)) eqn:L;
        cbn [negb] in H; [destruct H|].
      destruct (Gate.checkAuth page fetch) as [b did] eqn:E.
      cbn [In] in H. destruct H as [H|H]; [discriminate H|].
      apply in_app_or in H. destruct H as [H|H].
      * apply C. exact H.
      * destruct b; cbn in H;
          [destruct H as [H|[]]; discriminate H | destruct H].
  - reflexivity.
  - intros L. unfold Gate.onPageLoad. now rewrite L.
Qed.

Lemma checkAuth_shape :
  (exists sid, Gate.checkAuth page fetch = (true, [Gate.Fetch sid]))
  \/ Gate.checkAuth page fetch = (false, Gate.redirectToLogin page)
  \/ (exists sid,
        Gate.checkAuth page fetch
        = (false,
           (Gate.Fetch sid :: Gate.clearSession ++ Gate.redirectToLogin page)%list)).
Proof.
  unfold Gate.checkAuth.
  destruct (Gate.sessionCookie page) as [cookie|]; [|right; now left].
  destruct (fetch _) as [|r]; [right; right; now eexists|].
  destruct (negb (Gate.ok r) || negb (Gate.data_valid r));
    [right; right; now eexists | left; now eexists].
Qed.

(** X24: on a guarded page the listener first covers the page; it uncovers it
    exactly when [checkAuth] admits, and otherwise leaves it covered and
    navigates to the login page. *)
Theorem onPageLoad_uncovers_iff_admitted :
  Gate.includes "login.html" (Gate.pathname page) = false ->
  hd_error (Gate.onPageLoad page fetch) = Some Gate.AppendOverlay
  /\ (In Gate.RemoveOverlay (Gate.onPageLoad page fetch) <->
      fst (Gate.checkAuth page fetch) = true)
  /\ (In (Gate.SetHref "/login.html") (Gate.onPageLoad page fetch) <->
      fst (Gate.checkAuth page fetch) = false).
Proof.
  intros L. unfold Gate.onPageLoad. rewrite L. cbn [negb].
  destruct checkAuth_shape as [(sid & E) | [E | (sid & E)]]; rewrite E;
    unfold Gate.redirectToLogin; rewrite ?L; cbn.
  - split; [reflexivity|]. split; split; try discriminate; try tauto.
    intros [H|[H|[H|[]]]]; discriminate H.
  - split; [reflexivity|]. split; split; try discriminate; try tauto.
    intros [H|[H|[]]]; discriminate H.
  - split; [reflexivity|]. split; split; try discriminate; try tauto.
    intros [H|[H|[H|[H|[]]]]]; discriminate H.
Qed.

End GateBehaviour.

Lemma checkAuth_refusal_witness :
  snd (Gate.checkAuth
         (Gate.mkPage "recruiter_session=6162" "/index.html")
         (Gate.server (Scenario.env_at 9000 []) (reliable 9000)
            Scenario.logged_in))
  = [Gate.Fetch (Some "6162");
     Gate.SetCookie
       "recruiter_session=; expires=Thu, 01 Jan 1970 00:00:00 UTC; path=/;";
     Gate.SetHref "/login.html"].
Proof.
  refine (proj1 (proj2 (checkAuth_refusal
            (Gate.mkPage "recruiter_session=6162" "/index.html")
            (Gate.server (Scenario.env_at 9000 []) (reliable 9000)
               Scenario.logged_in) _))
            "recruiter_session=6162" _);
    reflexivity.
Defined.

Lemma onPageLoad_uncovers_iff_admitted_witness :
  hd_error (Gate.onPageLoad
              (Gate.mkPage "recruiter_session=6162" "/index.html")
              (Gate.server (Scenario.env_at 4000 []) (reliable 4000)
                 Scenario.logged_in))
  = Some Gate.AppendOverlay.
Proof.
  refine (proj1 (onPageLoad_uncovers_iff_admitted
            (Gate.mkPage "recruiter_session=6162" "/index.html")
            (Gate.server (Scenario.env_at 4000 []) (reliable 4000)
               Scenario.logged_in) _)).
  reflexivity.
Defined.

(** ** The gate in front of check-session *)

Section GateAndServer.

Variables (env : Env) (net : Net).

Lemma all_chars_impl (p q : ascii -> bool) s :
  (forall c, p c = true -> q c = true) ->
  all_chars p s = true -> all_chars q s = true.
Proof.
  intros Hpq. induction s as [|c s IH]; cbn; [reflexivity|].
  intros H. apply andb_true_iff in H. destruct H as [Hc Hs].
  now rewrite (Hpq c Hc), (IH Hs).
Qed.

Lemma lowerHex_not_semicolon c : lowerHex c = true -> not_semicolon c = true.
Proof. destruct c as [[] [] [] [] [] [] [] []]; cbn; congruence. Qed.

Lemma lowerHex_not_equals c : lowerHex c = true -> not_equals c = true.
Proof. destruct c as [[] [] [] [] [] [] [] []]; cbn; congruence. Qed.

Lemma hex_cookie_read buf pathname :
  let page := Gate.mkPage ("recruiter_session=" ++ toHex buf) pathname in
  Gate.sessionCookie page = Some ("recruiter_session=" ++ toHex buf)%string
  /\ Gate.sessionIdOf ("recruiter_session=" ++ toHex buf) = Some (toHex buf).
Proof.
  cbv zeta. split.
  - unfold Gate.sessionCookie. cbn [Gate.document_cookie].
    rewrite split_row_alone.
    + cbn [find]. unfold Gate.startsWith. cbn. now destruct (toHex buf).
    + cbn. apply (all_chars_impl lowerHex); [apply lowerHex_not_semicolon|].
      apply toHex_lowerHex.
  - apply sessionIdOf_value.
    apply (all_chars_impl lowerHex); [apply lowerHex_not_equals|].
    apply toHex_lowerHex.
Qed.

(** X25: with the cookie that carries a session identifier made by verify-code,
    and check-session answering from a store in which that identifier
    resolves to a session, the gate admits the page exactly when the session
    has not expired; when it has, the gate clears the cookie and, off the
    login page, navigates to the login page. *)
Theorem gate_admits_unexpired_session s pathname buf r :
  buf <> [] ->
  fails net (SelectSession (toHex buf)) = false ->
  select_session (toHex buf) s = Some r ->
  let page := Gate.mkPage ("recruiter_session=" ++ toHex buf) pathname in
  let result := Gate.checkAuth page (Gate.server env net s) in
  (fst result = true <-> clock env 0 <= se_expires_at r)
  /\ (clock env 0 <= se_expires_at r ->
      snd result = [Gate.Fetch (Some (toHex buf))])
  /\ (se_expires_at r < clock env 0 ->
      snd result
      = (Gate.Fetch (Some (toHex buf))
         :: Gate.clearSession ++ Gate.redirectToLogin page)%list).
Proof.
  intros Hbuf Hf Hs. cbv zeta.
  assert (Hsid : toHex buf <> "")
    by (destruct buf; [now elim Hbuf | discriminate]).
  destruct (hex_cookie_read buf pathname) as [Hc Hi]. cbv zeta in Hc.
  unfold Gate.checkAuth. rewrite Hc, Hi. unfold Gate.server.
  change (POST (mkFields None None (Some (toHex buf))))
    with (check_event (toHex buf)).
  destruct (Z_lt_le_dec (se_expires_at r) (clock env 0)) as [Hx|Hx].
  - rewrite (check_session_expired env net _ s r Hsid Hf Hs Hx).
    cbn [fst snd]. repeat split; try discriminate; try reflexivity; intros; lia.
  - rewrite (check_session_valid env net _ s r Hsid Hf Hs Hx).
    cbn [fst snd]. repeat split; try reflexivity; intros; try lia.
Qed.

End GateAndServer.

Lemma gate_admits_unexpired_session_witness :
  snd (Gate.checkAuth (Gate.mkPage "recruiter_session=6162" "/index.html")
         (Gate.server (Scenario.env_at 4000 []) (reliable 4000)
            Scenario.logged_in))
  = [Gate.Fetch (Some "6162")].
Proof.
  refine (proj1 (proj2 (gate_admits_unexpired_session
            (Scenario.env_at 4000 []) (reliable 4000) Scenario.logged_in
            "/index.html" ["a"%char; "b"%char] Scenario.old_session _ _ _)) _);
    [discriminate | reflexivity | reflexivity | discriminate].
Defined.

(** ** The whitelist variable *)

Section WhitelistVariable.

Variables (env : Env) (net : Net).

Lemma js_split_row_then a r rest :
  all_chars (fun c => negb (Ascii.eqb c a)) r = true ->
  Js.split a (r ++ String a "" ++ rest) = r :: Js.split a rest.
Proof.
  induction r as [|c r IH]; intros H.
  - cbn. now rewrite Ascii.eqb_refl.
  - cbn in H. apply andb_true_iff in H. destruct H as [Hc Hr].
    apply negb_true_iff in Hc.
    change (String c r ++ String a "" ++ rest)%string
      with (String c (r ++ String a "" ++ rest)).
    cbn [Js.split]. now rewrite Hc, (IH Hr).
Qed.

Lemma concat_cons2 sep r r' l :
  String.concat sep (r :: r' :: l)
  = (r ++ sep ++ String.concat sep (r' :: l))%string.
Proof. reflexivity. Qed.

Lemma js_split_concat entries :
  entries <> [] -> Forall (fun r => all_chars not_comma r = true) entries ->
  Js.split "," (String.concat "," entries) = entries.
Proof.
  induction entries as [|r entries IH]; intros Hne H; [now elim Hne|].
  inversion H as [|? ? Hr Hrows]; subst.
  destruct entries as [|r' entries'].
  - cbn. now apply js_split_no_sep.
  - rewrite concat_cons2, (js_split_row_then ","%char r _ Hr).
    f_equal. apply IH; [discriminate | assumption].
Qed.

(** X4: every address written in the comma-separated whitelist variable is
    issued a code, whatever the case and the surrounding blanks with which
    it is written there or in the request, provided its normalised form has
    the shape of an address and the insert succeeds. *)
Theorem listed_address_is_issued_a_code entries w e s :
  Forall (fun r => all_chars not_comma r = true) entries ->
  APPROVED_RECRUITER_EMAILS env = Some (String.concat "," entries) ->
  In w entries ->
  normalize e = normalize w ->
  e <> "" ->
  Js.test emailRegex (normalize e) = true ->
  fails net (InsertCode (normalize e) (SendCode.code env)
               (clock env 0 + CODE_TTL_MS)) = false ->
  statusCode (fst (send_code env net (send_event e) s)) = 200
  /\ In (mkCode (next_id s) (normalize w) (SendCode.code env) (db_now net)
           (clock env 0 + CODE_TTL_MS) false None)
        (verification_codes (snd (send_code env net (send_event e) s))).
Proof.
  intros Hc Hv Hw Hn He Hr Hf.
  assert (Ha : Js.includes (SendCode.approvedEmails env) (normalize e) = true).
  { unfold Js.includes, SendCode.approvedEmails. rewrite Hv.
    rewrite js_split_concat; [|destruct entries; [destruct Hw | discriminate]
                              |assumption].
    apply existsb_exists. exists (normalize w). split.
    - now apply in_map.
    - apply String.eqb_eq. exact Hn. }
  rewrite (send_code_issues env net e s He Hr Ha). cbv zeta. rewrite Hf.
  cbn [fst snd statusCode]. split; [reflexivity|].
  cbn [store_insert_code verification_codes]. rewrite <- Hn.
  apply in_or_app. right. now left.
Qed.

End WhitelistVariable.

Lemma listed_address_is_issued_a_code_witness :
  statusCode (fst (send_code
                     (mkEnv (Some "alice@x.com, Bob@Y.org") (fun _ => 1000) 0 [])
                     (reliable 1000) (send_event "BOB@y.org ") Scenario.empty))
  = 200.
Proof.
  refine (proj1 (listed_address_is_issued_a_code
                   (mkEnv (Some "alice@x.com, Bob@Y.org") (fun _ => 1000) 0 [])
                   (reliable 1000) ["alice@x.com"; " Bob@Y.org"] " Bob@Y.org"
                   "BOB@y.org " Scenario.empty _ _ _ _ _ _ _));
    [repeat constructor | reflexivity | right; left; reflexivity | reflexivity
    | discriminate | reflexivity | reflexivity].
Defined.

(** ** The expiry instant of a code *)

Section CodeExpiry.

Variables (env : Env) (net : Net).

(** X12: a code is redeemable up to and including its expiry instant: when the
    lookup returns a row, the answer is Expired exactly when the clock is
    past [expires_at]; and when no call fails, the answer is a session
    exactly when the clock is not past it. *)
Theorem code_expiry_is_inclusive e c s r :
  e <> "" -> Js.test codeRegex c = true ->
  fails net (SelectCode (normalize e) c) = false ->
  select_code (normalize e) c s = Some r ->
  let out := verify_code env net (verify_event e c) s in
  (fst out = VerifyCode.expired <-> vc_expires_at r < clock env 0)
  /\ ((forall q, fails net q = false) ->
      (statusCode (fst out) = 200 <-> clock env 0 <= vc_expires_at r)).
Proof.
  intros He Hc Hf Hs. cbv zeta.
  destruct (Z_lt_le_dec (vc_expires_at r) (clock env 0)) as [Hx|Hx].
  - rewrite (verify_code_expired env net e c s r He Hc Hf Hs Hx). cbn [fst].
    split; [tauto|]. intros _. split; [discriminate | lia].
  - rewrite (verify_code_live env net e c s r He Hc Hf Hs Hx). cbv zeta.
    split.
    + split; [|lia].
      destruct (fails net (UpdateCodeUsed _ _)); [discriminate|].
      destruct (fails net (InsertSession _ _ _)); discriminate.
    + intros Hok. rewrite !Hok. cbn [fst statusCode]. tauto.
Qed.

End CodeExpiry.

Lemma code_expiry_is_inclusive_witness :
  statusCode (fst (verify_code (Scenario.env_at 601000 ["a"%char])
                     (reliable 601000) (verify_event "alice@x.com" "10000")
                     Scenario.issued)) = 200.
Proof.
  refine (proj2 (proj2 (code_expiry_is_inclusive
                          (Scenario.env_at 601000 ["a"%char]) (reliable 601000)
                          "alice@x.com" "10000" Scenario.issued
                          Scenario.alice_code _ _ _ _) _) _);
    [discriminate | reflexivity | reflexivity | reflexivity | reflexivity
    | discriminate].
Defined.
